(** * Branch.cpp: branch handles, checkout and merge over a libgit2 repository

    A shallow embedding of [git::Branch] (src/cmake-build-debug/Branch.cpp).
    The class is a thin layer over libgit2: every method is a sequence of
    libgit2 calls, each followed by a test of the return code and a [throw].
    The embedding keeps that shape.  The repository the calls act on is an
    explicit state; a C++ method is a computation over that state which either
    returns or throws, and the state survives a throw. *)

From stdpp Require Import gmap strings list sorting fin_maps pretty.
From Stdlib Require Import ZArith.

Local Open Scope Z_scope.

(** ** The repository *)

(** Object ids ([git_oid]). *)
Abbreviation oid := N.

(** A tree is a map from path to blob id, [gmap string N].  (Paths are flat;
    the claims do not look inside directories.) *)

Record git_commit := Commit_obj {
  commit_tree : oid;
  commit_parents : list oid;
  commit_message : string
}.

Global Instance git_commit_eq_dec : EqDecision git_commit.
Proof. solve_decision. Defined.

Record git_index_entry := IndexEntry {
  path : string;
  id : oid
}.

Global Instance git_index_entry_eq_dec : EqDecision git_index_entry.
Proof. solve_decision. Defined.

(** One path of the index: a resolved (stage 0) entry, or a conflict with its
    ancestor (stage 1), ours (stage 2) and theirs (stage 3) entries, each of
    which may be missing. This is what [git_index_conflict_next] hands out:
    three entry pointers, any of which may be null. *)
Inductive index_slot :=
  | Staged (e : git_index_entry)
  | Conflicted (ancestor ours theirs : option git_index_entry).

Global Instance index_slot_eq_dec : EqDecision index_slot.
Proof. solve_decision. Defined.

(** [HEAD]: symbolic (attached to a reference name) or detached. *)
Inductive git_head :=
  | Symbolic (refname : string)
  | Detached (target : oid).

Global Instance git_head_eq_dec : EqDecision git_head.
Proof. solve_decision. Defined.

Record git_repository := Repo {
  commits : gmap N git_commit;
  trees : gmap N (gmap string N);
  refs : gmap string N;
  HEAD : git_head;
  index : list index_slot;
  workdir : gmap string N
}.

Definition set_HEAD (h : git_head) (r : git_repository) : git_repository :=
  Repo (commits r) (trees r) (refs r) h (index r) (workdir r).

Definition set_refs (rs : gmap string N) (r : git_repository) : git_repository :=
  Repo (commits r) (trees r) rs (HEAD r) (index r) (workdir r).

Definition set_commits (cs : gmap N git_commit) (r : git_repository) : git_repository :=
  Repo cs (trees r) (refs r) (HEAD r) (index r) (workdir r).

Definition set_trees (ts : gmap N (gmap string N)) (r : git_repository) : git_repository :=
  Repo (commits r) ts (refs r) (HEAD r) (index r) (workdir r).

(** The index and the working directory are written together by checkout and
    merge. *)
Definition set_worktree (iw : list index_slot * gmap string N) (r : git_repository)
  : git_repository :=
  Repo (commits r) (trees r) (refs r) (HEAD r) iw.1 iw.2.

(** ** libgit2 return codes *)

(** A libgit2 call returns 0 and its out-parameters, or a non-zero code and
    leaves a message in [git_error_last()]. *)
Inductive git_result (A : Type) :=
  | GitOk (a : A)
  | GitErr (message : string).
Arguments GitOk {A} a.
Arguments GitErr {A} message.

(** A reference object is a snapshot: its name and the target it had when it
    was looked up. *)
Record git_reference := Reference {
  ref_name : string;
  ref_target : oid
}.

Global Instance git_reference_eq_dec : EqDecision git_reference.
Proof. solve_decision. Defined.

(** [git_merge_analysis_t] (git2/merge.h). *)
Definition GIT_MERGE_ANALYSIS_NONE : Z := 0.
Definition GIT_MERGE_ANALYSIS_NORMAL : Z := Z.shiftl 1 0.
Definition GIT_MERGE_ANALYSIS_UP_TO_DATE : Z := Z.shiftl 1 1.
Definition GIT_MERGE_ANALYSIS_FASTFORWARD : Z := Z.shiftl 1 2.
Definition GIT_MERGE_ANALYSIS_UNBORN : Z := Z.shiftl 1 3.

(** [git_checkout_strategy_t]: the two strategies that matter here. *)
Inductive git_checkout_strategy :=
  | GIT_CHECKOUT_SAFE
  | GIT_CHECKOUT_FORCE.

(** ** The engine

    The algorithms of libgit2 that the class delegates to.  They are
    parameters of the development: what is proved about the class with an
    engine [E] in the context holds for every engine.  The result types record which part of
    the repository a call may write: merge analysis is read-only, merge and
    checkout write the index and the working directory and nothing else. *)
Class Libgit2 := {
  (** content addresses of the objects the class creates *)
  hash_tree : gmap string N → N;
  hash_commit : git_commit → N;
  (** [git_merge_analysis(&analysis, &preference, repo, their_heads, n)] *)
  merge_analysis : git_repository → list N → git_result Z;
  (** [git_merge(repo, their_heads, n, NULL, NULL)] *)
  merge_heads : git_repository → list N → git_result (list index_slot * gmap string N);
  (** [git_checkout_head(repo, &opts)] under [opts.checkout_strategy] *)
  checkout_head_tree :
    git_repository → git_checkout_strategy → git_result (list index_slot * gmap string N)
}.

(** ** C++ computations *)

Inductive exception :=
  | runtime_error (what : string)
  | invalid_argument (what : string).

Inductive outcome (A : Type) :=
  | Returned (a : A)
  | Thrown (e : exception).
Arguments Returned {A} a.
Arguments Thrown {A} e.

Definition cpp (A : Type) : Type := git_repository → outcome A * git_repository.

Global Instance cpp_ret : MRet cpp := λ A a r, (Returned a, r).

Global Instance cpp_bind : MBind cpp := λ A B k m r,
  match m r with
  | (Returned a, r') => k a r'
  | (Thrown e, r') => (Thrown e, r')
  end.

Definition throw {A : Type} (e : exception) : cpp A := λ r, (Thrown e, r).

(** [if (call(...) != 0) throw handler(git_error_last()->message);] for a call
    that writes the repository: on failure the repository is as before. *)
Definition git_call {A : Type} (call : git_repository → git_result (A * git_repository))
    (handler : string → exception) : cpp A :=
  λ r, match call r with
       | GitOk (a, r') => (Returned a, r')
       | GitErr m => (Thrown (handler m), r)
       end.

(** The same for a call that only reads. *)
Definition git_read {A : Type} (call : git_repository → git_result A)
    (handler : string → exception) : cpp A :=
  λ r, match call r with
       | GitOk a => (Returned a, r)
       | GitErr m => (Thrown (handler m), r)
       end.

(** ** The libgit2 calls of Branch.cpp

    libgit2 is not among the sources.  The calls that only read or write the
    references, HEAD, the index and the object store are modelled on the data
    model of the specification (section 3) and the contract libgit2 documents
    for the call; the calls that run an algorithm go through the engine. *)

Definition is_conflict (s : index_slot) : bool :=
  match s with
  | Staged _ => false
  | Conflicted _ _ _ => true
  end.

(** Modelled from the spec: [git_index_has_conflicts] of libgit2: some path of
    the index has conflict-stage entries (section 3, Index Entry). *)
Definition git_index_has_conflicts (idx : list index_slot) : bool :=
  existsb is_conflict idx.

(** What the conflict iterator yields for one conflict:
    [(ancestor, ours, theirs)]. *)
Definition conflict_of (s : index_slot)
  : option (option git_index_entry * option git_index_entry * option git_index_entry) :=
  match s with
  | Staged _ => None
  | Conflicted a o t => Some (a, o, t)
  end.

(** Modelled from the spec: [git_index_conflict_iterator_new] of libgit2: the
    conflicts of the index, in index order; [git_index_conflict_next] hands
    them out one by one. *)
Definition git_index_conflict_iterator_new (idx : list index_slot)
  : git_result (list (option git_index_entry * option git_index_entry * option git_index_entry)) :=
  GitOk (omap conflict_of idx).

(** The tree that the stage-0 entries of an index describe. *)
Definition staged_entry (s : index_slot) : option (string * N) :=
  match s with
  | Staged e => Some (path e, id e)
  | Conflicted _ _ _ => None
  end.

Definition index_tree (idx : list index_slot) : gmap string N :=
  list_to_map (omap staged_entry idx).

(** Modelled from the spec: [git_reference_name] of libgit2; a null reference
    has no name. *)
Definition git_reference_name (ref : option git_reference) : option string :=
  ref_name <$> ref.

Definition git_reference_target (ref : git_reference) : oid := ref_target ref.

(** Modelled from the spec: [git_reference_peel(&commit, ref,
    GIT_OBJECT_COMMIT)] of libgit2: the commit a direct reference points at,
    looked up through the target stored in the reference object. *)
Definition git_reference_peel (ref : option git_reference) (r : git_repository)
  : git_result N :=
  match ref with
  | None => GitErr "invalid argument: 'ref'"
  | Some ref =>
      match commits r !! ref_target ref with
      | Some _ => GitOk (ref_target ref)
      | None => GitErr "object not found"
      end
  end.

(** Modelled from the spec: [git_commit_lookup] and
    [git_annotated_commit_lookup] of libgit2: a handle on a stored commit
    (section 3, Object Store); the handle is the id. *)
Definition git_commit_lookup (c : oid) (r : git_repository) : git_result N :=
  match commits r !! c with
  | Some _ => GitOk c
  | None => GitErr "object not found"
  end.

Definition git_annotated_commit_lookup (c : oid) (r : git_repository) : git_result N :=
  git_commit_lookup c r.

(** Modelled from the spec: [git_repository_set_head(repo, refname)] of
    libgit2, the [setHead] of section 4.1: HEAD is attached to [refname] when
    it names a local branch (or no reference yet: an unborn branch) and
    detached at the commit otherwise.  No reference is written other than
    HEAD. *)
Definition git_repository_set_head (refname : option string) (r : git_repository)
  : git_result (unit * git_repository) :=
  match refname with
  | None => GitErr "invalid argument: 'refname'"
  | Some n =>
      match refs r !! n with
      | None => GitOk (tt, set_HEAD (Symbolic n) r)
      | Some target =>
          match commits r !! target with
          | None => GitErr "object not found"
          | Some _ =>
              GitOk (tt, set_HEAD (if String.prefix "refs/heads/" n
                                   then Symbolic n else Detached target) r)
          end
      end
  end.

(** Modelled from the spec: [git_repository_head(&ref, repo)] of libgit2: the
    reference HEAD resolves to (section 3, HEAD); HEAD itself when detached;
    an error on an unborn branch. *)
Definition git_repository_head (r : git_repository) : git_result git_reference :=
  match HEAD r with
  | Detached target => GitOk (Reference "HEAD" target)
  | Symbolic n =>
      match refs r !! n with
      | Some target => GitOk (Reference n target)
      | None => GitErr "reference not found"
      end
  end.

(** Modelled from the spec: [git_repository_index] of libgit2: the index of
    the repository. *)
Definition git_repository_index (r : git_repository) : git_result (list index_slot) :=
  GitOk (index r).

(** Modelled from the spec: [git_tree_lookup] of libgit2: a handle on a
    stored tree. *)
Definition git_tree_lookup (t : oid) (r : git_repository) : git_result N :=
  match trees r !! t with
  | Some _ => GitOk t
  | None => GitErr "object not found"
  end.

(** Modelled from the spec: writing [target] through a reference name, as
    libgit2 does for the [update_ref] of a new commit: through ["HEAD"] it
    moves the branch HEAD is attached to, or HEAD itself when detached. *)
Definition update_reference (update_ref : string) (target : oid) (r : git_repository)
  : git_repository :=
  if decide (update_ref = "HEAD") then
    match HEAD r with
    | Symbolic n => set_refs (<[n := target]> (refs r)) r
    | Detached _ => set_HEAD (Detached target) r
    end
  else set_refs (<[update_ref := target]> (refs r)) r.

Definition is_branch_name (n : string) : bool :=
  String.prefix "refs/heads/" n || String.prefix "refs/remotes/" n.

(** The order of the Reference Table (section 4.1): by name. *)
Definition name_le (a b : git_reference) : Prop :=
  Is_true (String.leb (ref_name a) (ref_name b)).

#[global] Instance name_le_dec a b : Decision (name_le a b) := _.

(** Modelled from the spec: the [listBranches] of section 4.1: all local and
    remote-tracking branches of the Reference Table, each once with the target
    of the moment, in the lexicographic order of their names. *)
Definition branch_references (r : git_repository) : list git_reference :=
  merge_sort name_le
    ((λ nt : string * N, Reference nt.1 nt.2)
       <$> filter (λ nt : string * N, Is_true (is_branch_name nt.1)) (map_to_list (refs r))).

(** Modelled from the spec: [git_branch_iterator_new(&it, repo,
    GIT_BRANCH_ALL)] of libgit2, which the code iterates with
    [git_branch_next]: it yields the branches of [listBranches] as reference
    objects. *)
Definition git_branch_iterator_new (r : git_repository) : git_result (list git_reference) :=
  GitOk (branch_references r).

Section Api.
Context `{E : Libgit2}.

(** [git_merge_analysis], by the engine. *)
Definition git_merge_analysis (their_heads : list N) (r : git_repository) : git_result Z :=
  merge_analysis r their_heads.

(** [git_merge], by the engine: writes the index and the working directory. *)
Definition git_merge (their_heads : list N) (r : git_repository)
  : git_result (unit * git_repository) :=
  match merge_heads r their_heads with
  | GitOk iw => GitOk (tt, set_worktree iw r)
  | GitErr m => GitErr m
  end.

(** [git_checkout_head], by the engine: writes the index and the working
    directory. *)
Definition git_checkout_head (strategy : git_checkout_strategy) (r : git_repository)
  : git_result (unit * git_repository) :=
  match checkout_head_tree r strategy with
  | GitOk iw => GitOk (tt, set_worktree iw r)
  | GitErr m => GitErr m
  end.

(** Modelled from the spec: [git_index_write_tree] of libgit2: refuses an
    index with conflicts; otherwise stores the tree of the stage-0 entries
    under its content address and returns the id. *)
Definition git_index_write_tree (idx : list index_slot) (r : git_repository)
  : git_result (N * git_repository) :=
  if git_index_has_conflicts idx
  then GitErr "cannot create a tree from a not fully merged index"
  else let t := index_tree idx in
       GitOk (hash_tree t, set_trees (<[hash_tree t := t]> (trees r)) r).

(** Modelled from the spec: [git_commit_create_v(&id, repo, update_ref,
    author, committer, encoding, message, tree, parent_count, parents...)] of
    libgit2: stores the commit under its content address and moves
    [update_ref] to it.  Signatures are not modelled. *)
Definition git_commit_create_v (update_ref : string) (message : string) (tree : oid)
    (parents : list oid) (r : git_repository) : git_result (N * git_repository) :=
  let c := Commit_obj tree parents message in
  GitOk (hash_commit c,
         update_reference update_ref (hash_commit c)
           (set_commits (<[hash_commit c := c]> (commits r)) r)).
End Api.

(** ** git::Branch *)

(** Modelled from the spec: [git::Commit] (Commit.hpp and Commit.cpp are not
    among the sources).  A commit handle wraps the libgit2 commit it was
    created from, [_commit], which Branch.cpp tests against null. *)
Record Commit := { _commit : option oid }.

(** Modelled from the spec: [Commit::create(commit, repo)], which is not among
    the sources: the handle of that commit. *)
Definition Commit_create (commit : oid) : Commit := {| _commit := Some commit |}.

(** The members of [git::Branch].  [_repo] is the one repository that the
    computations thread. *)
Record Branch := {
  _branch : option git_reference;
  _lastCommit : Commit
}.

Definition message : string := "Merged branch via libgit2".

Section Wrapper.
Context `{E : Libgit2}.

(** The constructor [Branch::Branch] from a reference, lines 6-13. *)
Definition Branch_new (branch : option git_reference) : cpp Branch :=
  commit ← git_read (git_reference_peel branch)
             (λ _, runtime_error "Failed to peel the reference to commit object.");
  mret {| _branch := branch; _lastCommit := Commit_create commit |}.

(** [Branch::create], lines 85-87. *)
Definition create (branch : option git_reference) : cpp Branch :=
  Branch_new branch.

(** The loop of [getAllBranches], lines 72-74: one handle for each reference
    that [git_branch_next] yields. *)
Fixpoint getAllBranches_loop (iterator : list git_reference) (branches : list Branch)
  : cpp (list Branch) :=
  match iterator with
  | [] => mret branches
  | branchRef :: iterator' =>
      b ← create (Some branchRef);
      getAllBranches_loop iterator' (branches ++ [b])
  end.

(** [Branch::getAllBranches], lines 61-79. *)
Definition getAllBranches : cpp (list Branch) :=
  iterator ← git_read git_branch_iterator_new
               (λ _, runtime_error "Failed to create branch iterator.");
  getAllBranches_loop iterator [].

(** [Branch::getLastCommit], lines 81-83. *)
Definition getLastCommit (this : Branch) : cpp Commit :=
  mret (_lastCommit this).

(** [Branch::checkout], lines 93-119. *)
Definition checkout (this : Branch) (targetBranch : option Branch) : cpp unit :=
  match targetBranch with
  | None => throw (invalid_argument "Target branch is null.")
  | Some target =>
      match _branch target with
      | None => throw (invalid_argument "Target branch reference is null.")
      | Some branchRef =>
          git_call (git_repository_set_head (git_reference_name (Some branchRef)))
            (λ m, runtime_error ("Could not update HEAD to target branch: " +:+ m));;
          git_call (git_checkout_head GIT_CHECKOUT_SAFE)
            (λ m, runtime_error ("Checkout failed: " +:+ m))
      end
  end.

(** [Branch::performFastforward], lines 147-195. *)
Definition performFastforward (this : Branch) (targetBranch : option Branch) : cpp bool :=
  match targetBranch with
  | None => throw (invalid_argument "Target branch is null.")
  | Some target =>
      lastCommit ← getLastCommit target;
      match _commit lastCommit with
      | None => throw (runtime_error "Target branch last commit is null.")
      | Some targetCommit =>
          annotatedTarget ← git_read (git_annotated_commit_lookup targetCommit)
            (λ _, runtime_error "Failed to lookup annotated commit for fast-forward.");
          analysis ← git_read (git_merge_analysis [annotatedTarget])
            (λ m, runtime_error ("Merge analysis failed: " +:+ m));
          if decide (Z.land analysis GIT_MERGE_ANALYSIS_FASTFORWARD ≠ 0) then
            git_call (git_repository_set_head (git_reference_name (_branch this)))
              (λ m, runtime_error ("Fast-forward failed: " +:+ m));;
            git_call (git_checkout_head GIT_CHECKOUT_SAFE)
              (λ m, runtime_error ("Fast-forward checkout failed: " +:+ m));;
            mret true
          else mret false
      end
  end.

(** [Branch::executeMergeCommit], lines 198-257.  [git_merge] is called with
    no heads ([nullptr], 0); the commit is created with one parent. *)
Definition executeMergeCommit (this : Branch) : cpp unit :=
  git_call (git_merge [])
    (λ m, runtime_error ("Failed to prepare merge: " +:+ m));;
  index ← git_read git_repository_index
    (λ m, runtime_error ("Failed to get repository index: " +:+ m));
  if git_index_has_conflicts index then
    throw (runtime_error "Merge conflicts detected.")
  else
    tree_oid ← git_call (git_index_write_tree index)
      (λ m, runtime_error ("Failed to write tree: " +:+ m));
    tree ← git_read (git_tree_lookup tree_oid)
      (λ m, runtime_error ("Failed to lookup tree: " +:+ m));
    parent ← git_read
      (λ r, match git_repository_head r with
            | GitOk headRef => git_commit_lookup (git_reference_target headRef) r
            | GitErr m => GitErr m
            end)
      (λ _, runtime_error "Failed to get HEAD commit.");
    git_call (git_commit_create_v "HEAD" message tree [parent])
      (λ m, runtime_error ("Failed to create merge commit: " +:+ m));;
    mret tt.

(** The loop of [getConflictingFiles], lines 279-283: a conflict contributes
    the path of its "ours" entry, when it has one. *)
Fixpoint getConflictingFiles_loop
    (conflictIter : list (option git_index_entry * option git_index_entry * option git_index_entry))
    (conflictingFiles : list string) : list string :=
  match conflictIter with
  | [] => conflictingFiles
  | (ancestor, ours, theirs) :: conflictIter' =>
      getConflictingFiles_loop conflictIter'
        (match ours with
         | Some e => conflictingFiles ++ [path e]
         | None => conflictingFiles
         end)
  end.

(** [Branch::getConflictingFiles], lines 259-289. *)
Definition getConflictingFiles (this : Branch) : cpp (list string) :=
  index ← git_read git_repository_index
    (λ m, runtime_error ("Failed to get repository index: " +:+ m));
  conflictIter ← git_read (λ _, git_index_conflict_iterator_new index)
    (λ m, runtime_error ("Failed to create conflict iterator: " +:+ m));
  mret (getConflictingFiles_loop conflictIter []).

(** [Branch::executeMerge], lines 131-146. *)
Definition executeMerge (this : Branch) (targetBranch : option Branch) : cpp unit :=
  match targetBranch with
  | None => throw (invalid_argument "Target branch is null.")
  | Some _ =>
      fastForwarded ← performFastforward this targetBranch;
      if (fastForwarded : bool) then mret tt
      else
        executeMergeCommit this;;
        conflicts ← getConflictingFiles this;
        if decide (conflicts = []) then mret tt
        else throw (runtime_error
                      ("Merge completed with conflicts. Files in conflict: "
                         +:+ pretty (length conflicts)))
  end.
End Wrapper.

(** ** An engine after the specification

    The engine below follows sections 4.2 and 4.3 of the specification.  It is
    the engine of the closed examples; the theorems that are stated for every
    engine do not depend on it. *)

(** Modelled from the spec: the walk over parent edges of section 4.2, step 1:
    [a] is [b] or one of its ancestors; the fuel bounds the length of the
    parent chain that is followed. *)
Fixpoint reachable (fuel : nat) (g : gmap N git_commit) (a b : oid) : bool :=
  if decide (a = b) then true
  else match fuel with
       | O => false
       | S fuel' =>
           match g !! b with
           | Some c => existsb (reachable fuel' g a) (commit_parents c)
           | None => false
           end
       end.

Definition is_ancestor (r : git_repository) (a b : oid) : bool :=
  reachable (size (commits r)) (commits r) a b.

(** Modelled from the spec: the merge base of section 4.2, step 1, "the
    nearest common ancestor": a common ancestor that every common ancestor is
    an ancestor of.  The merge engine is libgit2's and not among the
    sources. *)
Definition merge_base (r : git_repository) (a b : oid) : option oid :=
  let common := List.filter (λ c, is_ancestor r c a && is_ancestor r c b)
                  (elements (dom (commits r))) in
  List.find (λ c, forallb (λ d, is_ancestor r d c) common) common.

(** Modelled from the spec: the classification of section 4.2, step 2, against
    the commit of HEAD, reported with the flags of [git_merge_analysis].  The
    analysis is libgit2's and not among the sources. *)
Definition spec_merge_analysis (r : git_repository) (their_heads : list oid) : git_result Z :=
  match their_heads with
  | [their] =>
      match git_repository_head r with
      | GitErr m => GitErr "NotFound"
      | GitOk headRef =>
          let ours := ref_target headRef in
          match merge_base r ours their with
          | None => GitErr "Unrelated"
          | Some base =>
              if decide (ours = base)
              then GitOk (Z.lor GIT_MERGE_ANALYSIS_NORMAL GIT_MERGE_ANALYSIS_FASTFORWARD)
              else if decide (their = base) then GitOk GIT_MERGE_ANALYSIS_UP_TO_DATE
              else GitOk GIT_MERGE_ANALYSIS_NORMAL
          end
      end
  | _ => GitErr "exactly one head is analysed"
  end.

(** Modelled from the spec: the comparison of one path in section 4.2, step 4;
    [inl] is the resolved content (none: the path is absent from the result),
    [inr] a conflict. *)
Definition merge_path (p : string) (base ours theirs : option oid)
  : option oid + index_slot :=
  if decide (ours = base) then inl theirs
  else if decide (theirs = base) then inl ours
  else if decide (ours = theirs) then inl ours
  else inr (Conflicted (IndexEntry p <$> base) (IndexEntry p <$> ours)
              (IndexEntry p <$> theirs)).

(** Modelled from the spec: the three-way merge of section 4.2, step 4, of the
    commit of HEAD with [their]: the index gets a stage-0 entry for each
    resolved path and the conflict entries of each conflicting path; the
    working directory gets the resolved files and keeps what it has at a
    conflicting path. *)
Definition three_way (r : git_repository) (t_base t_ours t_theirs : gmap string N)
  : list index_slot * gmap string N :=
  let paths := elements (dom t_base ∪ dom t_ours ∪ dom t_theirs) in
  let slot p := match merge_path p (t_base !! p) (t_ours !! p) (t_theirs !! p) with
                | inl (Some i) => Some (Staged (IndexEntry p i))
                | inl None => None
                | inr c => Some c
                end in
  let file p := match merge_path p (t_base !! p) (t_ours !! p) (t_theirs !! p) with
                | inl i => pair p <$> i
                | inr _ => pair p <$> workdir r !! p
                end in
  (omap slot paths, list_to_map (omap file paths)).

Definition commit_tree_of (r : git_repository) (c : oid) : option (gmap string N) :=
  co ← commits r !! c; trees r !! commit_tree co.

(** Modelled from the spec: the merge of section 4.2 behind [git_merge]: the
    given head is merged into HEAD by the three-way comparison of step 4.
    The specification always merges one target and says nothing about a call
    without heads, which is the call Branch.cpp makes.  The clause for the
    empty list is therefore an assumption of this engine and not from the
    specification: nothing is merged and the index and the working directory
    stay as they are.  [strict_engine] below makes the other assumption, that
    the call is refused; the theorems stated for every engine cover both. *)
Definition spec_merge_heads (r : git_repository) (their_heads : list oid)
  : git_result (list index_slot * gmap string N) :=
  match their_heads with
  | [] => GitOk (index r, workdir r)
  | [their] =>
      match git_repository_head r with
      | GitErr m => GitErr "NotFound"
      | GitOk headRef =>
          let ours := ref_target headRef in
          match merge_base r ours their with
          | None => GitErr "Unrelated"
          | Some base =>
              match commit_tree_of r base, commit_tree_of r ours, commit_tree_of r their with
              | Some t_base, Some t_ours, Some t_theirs => GitOk (three_way r t_base t_ours t_theirs)
              | _, _, _ => GitErr "NotFound"
              end
          end
      end
  | _ => GitErr "one head is merged at a time"
  end.

(** Modelled from the spec: "a tracked file has local modifications not
    reflected in the Index's stage-0 entries" (section 4.3): some stage-0
    entry whose file in the working directory has other content. *)
Definition dirty (r : git_repository) : bool :=
  existsb (λ s, match s with
                | Staged e =>
                    match workdir r !! path e with
                    | Some i => negb (bool_decide (i = id e))
                    | None => false
                    end
                | Conflicted _ _ _ => false
                end) (index r).

(** The fully clean index of a tree. *)
Definition tree_index (t : gmap string N) : list index_slot :=
  (λ kv : string * N, Staged (IndexEntry kv.1 kv.2)) <$> map_to_list t.

(** Modelled from the spec: the checkout engine of section 4.3 behind
    [git_checkout_head]: the tree of the commit of HEAD is written to the
    working directory and the index becomes clean and matches it; in safe mode
    a dirty working tree is refused.  The checkout is libgit2's and not among
    the sources. *)
Definition spec_checkout_head_tree (r : git_repository) (strategy : git_checkout_strategy)
  : git_result (list index_slot * gmap string N) :=
  match git_repository_head r with
  | GitErr m => GitErr "NotFound"
  | GitOk headRef =>
      match commit_tree_of r (ref_target headRef) with
      | None => GitErr "NotFound"
      | Some t =>
          match strategy with
          | GIT_CHECKOUT_SAFE =>
              if dirty r then GitErr "DirtyWorkingTree" else GitOk (tree_index t, t)
          | GIT_CHECKOUT_FORCE => GitOk (tree_index t, t)
          end
      end
  end.

(** Modelled from the spec: content addresses (section 3, ObjectId), here a
    32-bit hash of the content of the object. *)
Definition hash_step (h x : N) : N := ((h * 31 + x) mod 2 ^ 32)%N.

Definition hash_string (s : string) : N :=
  foldl hash_step 7%N (Ascii.N_of_ascii <$> String.list_ascii_of_string s).

Definition spec_hash_tree (t : gmap string N) : oid :=
  foldl hash_step 11%N
    (flat_map (λ kv : string * N, [hash_string kv.1; kv.2]) (map_to_list t)).

Definition spec_hash_commit (c : git_commit) : oid :=
  foldl hash_step 13%N
    (commit_tree c :: hash_string (commit_message c) :: commit_parents c).

Definition spec_engine : Libgit2 := {|
  hash_tree := spec_hash_tree;
  hash_commit := spec_hash_commit;
  merge_analysis := spec_merge_analysis;
  merge_heads := spec_merge_heads;
  checkout_head_tree := spec_checkout_head_tree
|}.

(** ** The repositories of the examples *)

Definition blob_x : oid := 120%N.
Definition blob_y : oid := 121%N.
Definition blob_z : oid := 122%N.
Definition blob_w : oid := 119%N.

Definition main_ref : string := "refs/heads/main".
Definition feature_ref : string := "refs/heads/feature".

(** Section 8 of the specification: the base commit C0 has [f.txt] = "x";
    [main] adds [g.txt] = "y" in C1; [feature] changes [f.txt] to "z" in C2. *)
Definition tree0 : gmap string N := {[ "f.txt" := blob_x ]}.
Definition tree1 : gmap string N := <[ "g.txt" := blob_y ]> tree0.
Definition tree2 : gmap string N := {[ "f.txt" := blob_z ]}.

Definition commit0 : git_commit := Commit_obj (spec_hash_tree tree0) [] "C0".
Definition C0 : oid := spec_hash_commit commit0.
Definition commit1 : git_commit := Commit_obj (spec_hash_tree tree1) [C0] "C1".
Definition C1 : oid := spec_hash_commit commit1.
Definition commit2 : git_commit := Commit_obj (spec_hash_tree tree2) [C0] "C2".
Definition C2 : oid := spec_hash_commit commit2.

Definition objects : gmap N git_commit :=
  <[C0 := commit0]> (<[C1 := commit1]> (<[C2 := commit2]> ∅)).

Definition object_trees : gmap N (gmap string N) :=
  <[spec_hash_tree tree0 := tree0]>
    (<[spec_hash_tree tree1 := tree1]> (<[spec_hash_tree tree2 := tree2]> ∅)).

(** [main] at C1 and [feature] at C2 have diverged from C0 on disjoint paths;
    [main] is checked out and clean. *)
Definition repo_diverged : git_repository :=
  Repo objects object_trees (<[main_ref := C1]> (<[feature_ref := C2]> ∅))
    (Symbolic main_ref) (tree_index tree1) tree1.

(** [main] at C0 is behind [feature] at C1; [main] is checked out and clean. *)
Definition repo_behind : git_repository :=
  Repo objects object_trees (<[main_ref := C0]> (<[feature_ref := C1]> ∅))
    (Symbolic main_ref) (tree_index tree0) tree0.

(** [main] at C1 is ahead of [feature] at C0; [main] is checked out and
    clean. *)
Definition repo_ahead : git_repository :=
  Repo objects object_trees (<[main_ref := C1]> (<[feature_ref := C0]> ∅))
    (Symbolic main_ref) (tree_index tree1) tree1.

(** [repo_diverged] with [f.txt] edited in the working directory and not
    staged. *)
Definition repo_dirty : git_repository :=
  Repo objects object_trees (<[main_ref := C1]> (<[feature_ref := C2]> ∅))
    (Symbolic main_ref) (tree_index tree1) (<[ "f.txt" := blob_w ]> tree1).

(** The branches of [repo_diverged] with an index that holds a conflict, as an
    earlier merge that was not concluded leaves it: for [f.txt] an ancestor
    and a "theirs" entry and no "ours" entry (the shape of a conflict in which
    our side deleted the file).  The conflict is in the index only; it is not
    what comparing [main] with [feature] gives. *)
Definition repo_conflicted : git_repository :=
  Repo objects object_trees (<[main_ref := C1]> (<[feature_ref := C2]> ∅))
    (Symbolic main_ref)
    [Conflicted (Some (IndexEntry "f.txt" blob_x)) None (Some (IndexEntry "f.txt" blob_z));
     Staged (IndexEntry "g.txt" blob_y)]
    {[ "g.txt" := blob_y ]}.

(** The handles on [main] and [feature] as their constructor builds them in
    [repo_diverged]. *)
Definition main_branch : Branch :=
  {| _branch := Some (Reference main_ref C1); _lastCommit := Commit_create C1 |}.

Definition feature_branch : Branch :=
  {| _branch := Some (Reference feature_ref C2); _lastCommit := Commit_create C2 |}.

(** A handle on the branch [name] at [tip]. *)
Definition branch_at (name : string) (tip : oid) : Branch :=
  {| _branch := Some (Reference name tip); _lastCommit := Commit_create tip |}.

(** The commit that [executeMergeCommit] writes in [repo_diverged]. *)
Definition merged_commit : git_commit :=
  Commit_obj (spec_hash_tree tree1) [C1] message.

(** The paths in conflict, in the words of the specification: every path with
    conflict entries, whichever of the three sides it has. *)
Definition conflict_path (s : index_slot) : option string :=
  match s with
  | Staged _ => None
  | Conflicted ancestor ours theirs => path <$> (ancestor ∪ ours ∪ theirs)
  end.

Definition conflicting_paths (idx : list index_slot) : list string :=
  omap conflict_path idx.

(** The path a conflict is reported under by [getConflictingFiles]. *)
Definition ours_path (s : index_slot) : option string :=
  match s with
  | Conflicted _ (Some e) _ => Some (path e)
  | _ => None
  end.

(** The commit a handle's branch points at in [r]: its current tip. *)
Definition current_tip (b : Branch) (r : git_repository) : option oid :=
  n ← git_reference_name (_branch b); refs r !! n.

(** Section 8 of the specification, second scenario: from the base C0 with
    [f.txt] = "x", [main] sets [f.txt] to "z" (the commit C2) and [feature]
    sets it to "w" (the commit [Cw]).  [main] is checked out and clean. *)
Definition tree_w : gmap string N := {[ "f.txt" := blob_w ]}.

Definition commit_w : git_commit := Commit_obj (spec_hash_tree tree_w) [C0] "Cw".
Definition Cw : oid := spec_hash_commit commit_w.

Definition repo_same_path : git_repository :=
  Repo (<[C0 := commit0]> (<[C2 := commit2]> (<[Cw := commit_w]> ∅)))
    (<[spec_hash_tree tree0 := tree0]>
       (<[spec_hash_tree tree2 := tree2]> (<[spec_hash_tree tree_w := tree_w]> ∅)))
    (<[main_ref := C2]> (<[feature_ref := Cw]> ∅))
    (Symbolic main_ref) (tree_index tree2) tree2.

(** The engine of the specification, except that a merge without heads is
    refused. *)
Definition strict_merge_heads (r : git_repository) (their_heads : list oid)
  : git_result (list index_slot * gmap string N) :=
  match their_heads with
  | [] => GitErr "no heads to merge"
  | _ :: _ => spec_merge_heads r their_heads
  end.

Definition strict_engine : Libgit2 := {|
  hash_tree := spec_hash_tree;
  hash_commit := spec_hash_commit;
  merge_analysis := spec_merge_analysis;
  merge_heads := strict_merge_heads;
  checkout_head_tree := spec_checkout_head_tree
|}.

(** ** Branch names *)

(** What is left of [s] after the prefix [p], when [s] starts with [p]. *)
Fixpoint strip_prefix (p s : string) : option string :=
  match p, s with
  | EmptyString, _ => Some s
  | String a p', String b s' => if Ascii.eqb a b then strip_prefix p' s' else None
  | String _ _, EmptyString => None
  end.

(** Modelled from the spec: [git_branch_name] of libgit2, which is not among
    the sources: the branch part of the name of a reference that lives under
    [refs/heads/] or [refs/remotes/] (the name of a Branch in section 3); an
    error for any other reference and for a null one. *)
Definition git_branch_name (ref : option git_reference) : git_result string :=
  match ref with
  | None => GitErr "invalid argument: 'ref'"
  | Some ref =>
      match strip_prefix "refs/heads/" (ref_name ref) with
      | Some branch_name => GitOk branch_name
      | None =>
          match strip_prefix "refs/remotes/" (ref_name ref) with
          | Some branch_name => GitOk branch_name
          | None => GitErr "reference is neither a local nor a remote branch."
          end
      end
  end.

(** [Branch::getBranchName], lines 120-129. *)
Definition getBranchName (this : Branch) : cpp string :=
  git_read (λ _, git_branch_name (_branch this))
    (λ m, runtime_error ("Failed to get branch name: " +:+ m)).

(** The handle that the constructor builds from a reference object. *)
Definition handle_of (ref : git_reference) : Branch :=
  {| _branch := Some ref; _lastCommit := Commit_create (ref_target ref) |}.

(** [repo_diverged] with one more branch, whose commit is not in the object
    store. *)
Definition repo_dangling : git_repository :=
  set_refs (<[ "refs/heads/broken" := 999%N ]> (refs repo_diverged)) repo_diverged.

(** [repo_diverged] with HEAD attached to a branch that does not exist yet. *)
Definition repo_unborn : git_repository :=
  set_HEAD (Symbolic "refs/heads/new") repo_diverged.

(** ** Ownership of the reference

    The constructors, the destructor and the assignment operators of
    [git::Branch] (lines 15-59) decide who frees the libgit2 reference behind
    [_branch].  Here [_branch] is an address, the reference objects that are
    alive are a map from addresses, and Branch objects live at addresses of
    their own, so that [this == &other] can be tested. *)
Module Ownership.

(** The members of [git::Branch], with [_branch] and [_repo] as pointers. *)
Record Branch := {
  _branch : option positive;
  _repo : positive;
  _lastCommit : Commit
}.

Record memory := Memory {
  references : gmap positive git_reference;
  objects : gmap positive Branch
}.

(** A step returns with the live references it leaves, throws, or is
    undefined behaviour: a reference is freed or read that is not alive. *)
Inductive run (A : Type) :=
  | Done (a : A) (refs : gmap positive git_reference)
  | Raised (e : exception) (refs : gmap positive git_reference)
  | Undefined.
Arguments Done {A} a refs.
Arguments Raised {A} e refs.
Arguments Undefined {A}.

(** Modelled from the spec: [git_reference_free] of libgit2, which is not
    among the sources: nothing for a null pointer; a live reference is
    released; releasing one that is not alive is undefined ([None]). *)
Definition git_reference_free (ref : option positive) (refs : gmap positive git_reference)
  : option (gmap positive git_reference) :=
  match ref with
  | None => Some refs
  | Some a => match refs !! a with
              | Some _ => Some (delete a refs)
              | None => None
              end
  end.

(** Modelled from the spec: [git_reference_dup] of libgit2, which is not among
    the sources: a new reference object with the content of [source], at an
    address that was not in use; undefined ([None]) when [source] is null or
    not alive. *)
Definition git_reference_dup (source : option positive) (refs : gmap positive git_reference)
  : option (git_result positive * gmap positive git_reference) :=
  match source with
  | None => None
  | Some a => match refs !! a with
              | Some ref => let q := fresh (dom refs) in Some (GitOk q, <[q := ref]> refs)
              | None => None
              end
  end.

(** The copy constructor, lines 15-20. *)
Definition copy_constructor (other : Branch) (refs : gmap positive git_reference)
  : run Branch :=
  match git_reference_dup (_branch other) refs with
  | Some (GitOk q, refs') =>
      Done {| _branch := Some q; _repo := _repo other; _lastCommit := _lastCommit other |}
        refs'
  | Some (GitErr _, refs') => Raised (runtime_error "Failed to duplicate git_reference") refs'
  | None => Undefined
  end.

(** The move constructor, lines 22-23: the members of [other] are copied and
    [other] is left as it is. *)
Definition move_constructor (other : Branch) : Branch :=
  {| _branch := _branch other; _repo := _repo other; _lastCommit := _lastCommit other |}.

(** The two constructors that take a repository, lines 25-29. *)
Definition rebind_constructor (other : Branch) (repo : positive) : Branch :=
  {| _branch := _branch other; _repo := repo; _lastCommit := _lastCommit other |}.

(** The destructor, lines 31-33. *)
Definition destructor (this : Branch) (refs : gmap positive git_reference)
  : option (gmap positive git_reference) :=
  git_reference_free (_branch this) refs.

(** Copy assignment, lines 35-46: [temp] is a copy of [other]; the three
    members are swapped, so [this] gets those of [temp] and [temp] those that
    [this] had; [temp] is destroyed on return.  The result is the objects
    after the assignment. *)
Definition copy_assignment (this other : positive) (m : memory)
  : run (gmap positive Branch) :=
  if decide (this = other) then Done (objects m) (references m)
  else
    match objects m !! this, objects m !! other with
    | Some t, Some o =>
        match copy_constructor o (references m) with
        | Done temp refs1 =>
            match destructor t refs1 with
            | Some refs2 => Done (<[this := temp]> (objects m)) refs2
            | None => Undefined
            end
        | Raised e refs1 => Raised e refs1
        | Undefined => Undefined
        end
    | _, _ => Undefined
    end.

(** Move assignment, lines 48-59: the same with [temp] move-constructed from
    [other]. *)
Definition move_assignment (this other : positive) (m : memory)
  : run (gmap positive Branch) :=
  if decide (this = other) then Done (objects m) (references m)
  else
    match objects m !! this, objects m !! other with
    | Some t, Some o =>
        let temp := move_constructor o in
        match destructor t (references m) with
        | Some refs1 => Done (<[this := temp]> (objects m)) refs1
        | None => Undefined
        end
    | _, _ => Undefined
    end.
End Ownership.

(** Two Branch objects, at addresses 1 and 2, each owning a reference. *)
Definition owner_main : Ownership.Branch :=
  {| Ownership._branch := Some 5%positive; Ownership._repo := 9%positive;
     Ownership._lastCommit := Commit_create C1 |}.

Definition owner_feature : Ownership.Branch :=
  {| Ownership._branch := Some 7%positive; Ownership._repo := 9%positive;
     Ownership._lastCommit := Commit_create C2 |}.

Definition live_references : gmap positive git_reference :=
  <[5%positive := Reference main_ref C1]> (<[7%positive := Reference feature_ref C2]> ∅).

Definition two_owners : Ownership.memory :=
  Ownership.Memory live_references
    (<[1%positive := owner_main]> (<[2%positive := owner_feature]> ∅)).

(** [repo_behind] with [f.txt] edited in the working directory and not
    staged. *)
Definition repo_behind_dirty : git_repository :=
  Repo objects object_trees (<[main_ref := C0]> (<[feature_ref := C1]> ∅))
    (Symbolic main_ref) (tree_index tree0) (<[ "f.txt" := blob_w ]> tree0).

(** A handle on a tag. *)
Definition tag_handle : Branch :=
  {| _branch := Some (Reference "refs/tags/v1" C1); _lastCommit := Commit_create C1 |}.

(** An exception other than the conflict report at the end of
    [executeMerge]. *)
Definition not_conflict_report (e : exception) : Prop :=
  ∀ n, e ≠ runtime_error ("Merge completed with conflicts. Files in conflict: " +:+ n).

(** * Properties *)

Ltac unfold_cpp :=
  unfold mbind, cpp_bind, mret, cpp_ret, throw, git_call, git_read in *.

(** Closed goals are settled by running the definitions. *)
Ltac evaluate := repeat apply conj; vm_compute; reflexivity.

(** ** What the class does, for every engine *)

(** What [git_commit_create_v] does to "HEAD". *)
Lemma update_reference_attached n c r :
  HEAD r = Symbolic n → update_reference "HEAD" c r = set_refs (<[n := c]> (refs r)) r.
Proof. unfold update_reference. intros ->. by rewrite decide_True. Qed.

Lemma update_reference_detached t c r :
  HEAD r = Detached t → update_reference "HEAD" c r = set_HEAD (Detached c) r.
Proof. unfold update_reference. intros ->. by rewrite decide_True. Qed.

Section Wrapper_facts.
Context `{E : Libgit2}.

(** *** Fast-forward *)

Lemma performFastforward_false this target r r' :
  performFastforward this target r = (Returned false, r') → r' = r.
Proof.
  unfold performFastforward, getLastCommit. unfold_cpp. intros H.
  repeat case_match; simplify_eq; done.
Qed.

Lemma performFastforward_false_fst this target r :
  (performFastforward this target r).1 = Returned false →
  performFastforward this target r = (Returned false, r).
Proof.
  destruct (performFastforward this target r) as [o r'] eqn:H. simpl.
  intros ->. by rewrite (performFastforward_false _ _ _ _ H).
Qed.

(** Whether the merge is a fast-forward does not depend on the handle the
    merge is invoked on. *)
Lemma performFastforward_other this other target r :
  (performFastforward this target r).1 = Returned false →
  performFastforward other target r = (Returned false, r).
Proof.
  unfold performFastforward, getLastCommit. unfold_cpp. intros H.
  repeat case_match; simplify_eq; done.
Qed.

(** No path through [performFastforward] writes a reference other than HEAD
    or an object. *)
Lemma performFastforward_store this target r o r' :
  performFastforward this target r = (o, r') →
  commits r' = commits r ∧ trees r' = trees r ∧ refs r' = refs r.
Proof.
  unfold performFastforward, getLastCommit, git_checkout_head, git_repository_set_head.
  unfold_cpp. intros H.
  repeat case_match; simplify_eq; done.
Qed.

(** *** The conflict list *)

Lemma getConflictingFiles_loop_app idx acc :
  getConflictingFiles_loop (omap conflict_of idx) acc = acc ++ omap ours_path idx.
Proof.
  revert acc. induction idx as [|s idx IH]; intros acc; simpl.
  - by rewrite app_nil_r.
  - destruct s as [e|a [o|] t]; simpl; rewrite ?IH; try done.
    by rewrite <- app_assoc.
Qed.

Lemma getConflictingFiles_eq this r :
  getConflictingFiles this r = (Returned (omap ours_path (index r)), r).
Proof.
  unfold getConflictingFiles, git_repository_index, git_index_conflict_iterator_new.
  unfold_cpp. by rewrite getConflictingFiles_loop_app.
Qed.

Lemma no_conflicts_no_paths idx :
  git_index_has_conflicts idx = false → omap ours_path idx = [].
Proof.
  induction idx as [|s idx IH]; [done|].
  destruct s; simpl; [exact IH | discriminate].
Qed.

(** *** The merge commit *)

Lemma index_update_reference n c r : index (update_reference n c r) = index r.
Proof. unfold update_reference. case_decide; [destruct (HEAD r)|]; done. Qed.

Lemma commits_update_reference n c r : commits (update_reference n c r) = commits r.
Proof. unfold update_reference. case_decide; [destruct (HEAD r)|]; done. Qed.

Lemma trees_update_reference n c r : trees (update_reference n c r) = trees r.
Proof. unfold update_reference. case_decide; [destruct (HEAD r)|]; done. Qed.

(** A normal return of [executeMergeCommit] determines the repository: the
    engine merged no head, the index it left has no conflict, and one commit
    was stored whose only parent is what HEAD resolved to. *)
Lemma executeMergeCommit_returned this r r' :
  executeMergeCommit this r = (Returned tt, r') →
  ∃ iw headRef,
    merge_heads r [] = GitOk iw ∧
    git_index_has_conflicts iw.1 = false ∧
    git_repository_head r = GitOk headRef ∧
    let tree := hash_tree (index_tree iw.1) in
    let c := Commit_obj tree [ref_target headRef] message in
    r' = update_reference "HEAD" (hash_commit c)
           (set_commits (<[hash_commit c := c]> (commits r))
              (set_trees (<[tree := index_tree iw.1]> (trees r)) (set_worktree iw r))).
Proof.
  unfold executeMergeCommit, git_merge, git_repository_index, git_index_write_tree,
    git_tree_lookup, git_commit_create_v, git_commit_lookup, git_reference_target.
  unfold_cpp. intros H.
  repeat case_match; simplify_eq.
  eexists _, _. repeat split; eauto.
Qed.

(** When the engine refuses the merge, nothing else happens. *)
Lemma executeMergeCommit_prepare_failed this r m :
  merge_heads r [] = GitErr m →
  executeMergeCommit this r
  = (Thrown (runtime_error ("Failed to prepare merge: " +:+ m)), r).
Proof.
  intros H. unfold executeMergeCommit, git_merge. unfold_cpp. by rewrite H.
Qed.

(** [executeMergeCommit] stores at most one commit, with one parent. *)
Lemma executeMergeCommit_new_commits this r o r' i c :
  executeMergeCommit this r = (o, r') →
  commits r' !! i = Some c →
  commits r !! i = Some c ∨ ∃ tree parent, c = Commit_obj tree [parent] message.
Proof.
  unfold executeMergeCommit, git_merge, git_repository_index, git_index_write_tree,
    git_tree_lookup, git_commit_create_v, git_commit_lookup, git_reference_target.
  unfold_cpp. intros H Hc.
  repeat case_match; simplify_eq; try (left; exact Hc).
  rewrite commits_update_reference in Hc. simpl in Hc.
  apply lookup_insert_Some in Hc as [[_ <-]|[_ Hc]]; eauto.
Qed.

(** [executeMerge] past the fast-forward test. *)
Lemma executeMerge_step this target r :
  (performFastforward this (Some target) r).1 = Returned false →
  executeMerge this (Some target) r =
    match executeMergeCommit this r with
    | (Returned _, r') =>
        if decide (omap ours_path (index r') = []) then (Returned tt, r')
        else (Thrown (runtime_error
                        ("Merge completed with conflicts. Files in conflict: "
                           +:+ pretty (length (omap ours_path (index r'))))), r')
    | (Thrown e, r') => (Thrown e, r')
    end.
Proof.
  intros H. apply performFastforward_false_fst in H.
  unfold executeMerge. unfold mbind at 1. unfold cpp_bind at 1. rewrite H.
  unfold mbind at 1. unfold cpp_bind at 1.
  destruct (executeMergeCommit this r) as [[[]|e] r']; [|done].
  unfold mbind, cpp_bind. rewrite getConflictingFiles_eq.
  case_decide; done.
Qed.

Lemma executeMerge_returned this target r r' :
  (performFastforward this (Some target) r).1 = Returned false →
  executeMerge this (Some target) r = (Returned tt, r') →
  executeMergeCommit this r = (Returned tt, r').
Proof.
  intros Hff. rewrite executeMerge_step by done.
  destruct (executeMergeCommit this r) as [[[]|e] r2]; [|done].
  case_decide; intros; simplify_eq; done.
Qed.

Lemma executeMergeCommit_clean this r r' :
  executeMergeCommit this r = (Returned tt, r') →
  git_index_has_conflicts (index r') = false.
Proof.
  intros (iw & headRef & _ & Hclean & _ & ->)%executeMergeCommit_returned.
  by rewrite index_update_reference.
Qed.

(** Every commit that [executeMerge] adds to the object store has exactly
    one parent. *)
Lemma executeMerge_new_commits this target r o r' i c :
  executeMerge this target r = (o, r') →
  commits r' !! i = Some c →
  commits r !! i = Some c ∨ ∃ tree parent, c = Commit_obj tree [parent] message.
Proof.
  destruct target as [target|]; [|unfold executeMerge, throw; intros; simplify_eq; eauto].
  destruct (performFastforward this (Some target) r) as [[[]|e] r1] eqn:Hff.
  - unfold executeMerge. unfold_cpp. rewrite Hff. intros ? Hc; simplify_eq.
    apply performFastforward_store in Hff as (Hcs & _). rewrite Hcs in Hc. eauto.
  - rewrite executeMerge_step by (by rewrite Hff).
    destruct (executeMergeCommit this r) as [[[]|e] r2] eqn:Hmc; intros H Hc.
    + eapply executeMergeCommit_new_commits; [exact Hmc|]. by case_decide; simplify_eq.
    + simplify_eq. eapply executeMergeCommit_new_commits; eauto.
  - unfold executeMerge. unfold_cpp. rewrite Hff. intros ? Hc; simplify_eq.
    apply performFastforward_store in Hff as (Hcs & _). rewrite Hcs in Hc. eauto.
Qed.

(** When [executeMergeCommit] returns, HEAD resolves to the commit it
    created, whose single parent is the commit HEAD resolved to before. *)
Lemma executeMergeCommit_head this r r' :
  executeMergeCommit this r = (Returned tt, r') →
  ∃ iw headRef,
    merge_heads r [] = GitOk iw ∧
    git_repository_head r = GitOk headRef ∧
    let c := Commit_obj (hash_tree (index_tree iw.1)) [ref_target headRef] message in
    git_repository_head r' = GitOk (Reference (ref_name headRef) (hash_commit c)) ∧
    commits r' !! hash_commit c = Some c ∧
    trees r' !! hash_tree (index_tree iw.1) = Some (index_tree iw.1) ∧
    index r' = iw.1 ∧ workdir r' = iw.2.
Proof.
  intros (iw & headRef & Hm & _ & Hhead & Hr')%executeMergeCommit_returned.
  cbv zeta in Hr'. exists iw, headRef. split; [done|]. split; [done|]. cbv zeta.
  set (c := Commit_obj (hash_tree (index_tree iw.1)) [ref_target headRef] message) in *.
  unfold git_repository_head in Hhead. destruct (HEAD r) as [n|t] eqn:Hh.
  - rewrite (update_reference_attached n) in Hr' by exact Hh. rewrite Hr'.
    unfold git_repository_head.
    cbn [HEAD refs commits trees index workdir set_refs set_commits set_trees set_worktree].
    rewrite Hh, !lookup_insert_eq. destruct (refs r !! n); by simplify_eq.
  - rewrite (update_reference_detached t) in Hr' by exact Hh. rewrite Hr'.
    unfold git_repository_head.
    cbn [HEAD refs commits trees index workdir set_HEAD set_commits set_trees set_worktree].
    rewrite !lookup_insert_eq. by simplify_eq.
Qed.

(** Past the fast-forward test the target branch is not looked at again. *)
Lemma executeMerge_ignores_target this target target' r :
  (performFastforward this (Some target) r).1 = Returned false →
  (performFastforward this (Some target') r).1 = Returned false →
  executeMerge this (Some target) r = executeMerge this (Some target') r.
Proof. intros H H'. by rewrite !executeMerge_step. Qed.
End Wrapper_facts.

(** ** Merging *)

Lemma objects_lookup i c :
  objects !! i = Some c → c = commit0 ∨ c = commit1 ∨ c = commit2.
Proof.
  unfold objects. intros H.
  repeat (apply lookup_insert_Some in H as [[_ <-]|[_ H]]; [eauto|]).
  by rewrite lookup_empty in H.
Qed.

(** The commits of the examples have at most one parent and their own
    messages. *)
Lemma objects_parents i c :
  objects !! i = Some c → (length (commit_parents c) ≤ 1)%nat ∧ commit_message c ≠ message.
Proof.
  intros [-> | [-> | ->]]%objects_lookup; (split; [cbv [commit0 commit1 commit2 commit_parents length]; lia | discriminate]).
Qed.

(** C1 (the code departs from the claim).  In the scenario of section 8 of the
    specification, [main] at C1 and [feature] at C2 edit disjoint paths.
    Whatever the engine does, merging [feature] into [main] leaves no commit
    with the two parents C1 and C2 in the repository: [git_merge] is given no
    head and the only commit that may be created has the single parent that
    HEAD resolves to. *)
Theorem executeMerge_never_two_parents (E : Libgit2) :
  map_Forall (λ _ c, commit_parents c ≠ [C1; C2])
    (commits (executeMerge main_branch (Some feature_branch) repo_diverged).2).
Proof.
  intros i c Hc.
  destruct (executeMerge main_branch (Some feature_branch) repo_diverged) as [o r'] eqn:Hm.
  destruct (executeMerge_new_commits _ _ _ _ _ _ _ Hm Hc) as [Hold|(tree & parent & ->)].
  - apply objects_parents in Hold as [Hlen _]. intros Hp. rewrite Hp in Hlen.
    cbv [length] in Hlen. lia.
  - intros Hp. apply (f_equal length) in Hp. discriminate Hp.
Qed.

(** With the engine of the specification the merge returns normally: [main]
    moves to a commit whose only parent is C1 and whose tree is the tree of
    C1, without the edit of [feature]. *)
Lemma executeMerge_diverged_run :
  let run := executeMerge (E := spec_engine) main_branch (Some feature_branch) repo_diverged in
  run.1 = Returned tt ∧
  refs run.2 !! main_ref = Some (spec_hash_commit merged_commit) ∧
  commits run.2 !! spec_hash_commit merged_commit = Some merged_commit ∧
  commit_parents merged_commit = [C1] ∧
  (trees run.2 !! commit_tree merged_commit) ≫= (.!! "f.txt") = Some blob_x ∧
  (trees run.2 !! commit_tree merged_commit) ≫= (.!! "g.txt") = Some blob_y.
Proof. evaluate. Qed.

(** The engine of the specification, given the head, merges the two sides:
    [f.txt] from [feature] and [g.txt] from [main]. *)
Lemma spec_merge_heads_diverged :
  match spec_merge_heads repo_diverged [C2] with
  | GitOk iw =>
      git_index_has_conflicts iw.1 = false ∧
      index_tree iw.1 !! "f.txt" = Some blob_z ∧
      index_tree iw.1 !! "g.txt" = Some blob_y
  | GitErr _ => False
  end.
Proof. vm_compute. by repeat apply conj. Qed.

Section Merge_facts.
Context `{E : Libgit2}.

(** C2 (the code departs from the claim).  When the merge is a fast-forward,
    [executeMerge] returns normally and no reference has moved and no commit
    was created: the branch the merge was invoked on keeps its tip. *)
Theorem executeMerge_fastforward_keeps_refs this target r :
  (performFastforward this (Some target) r).1 = Returned true →
  ∃ r', executeMerge this (Some target) r = (Returned tt, r') ∧
        refs r' = refs r ∧ commits r' = commits r.
Proof.
  destruct (performFastforward this (Some target) r) as [o r'] eqn:Hff.
  intros Ho. cbn [fst] in Ho. subst o. exists r'.
  pose proof (performFastforward_store _ _ _ _ _ Hff) as (Hc & _ & Hr).
  split; [|done]. unfold executeMerge. unfold_cpp. by rewrite Hff.
Qed.
End Merge_facts.

(** C2, at [repo_behind]: C0, the tip of [main], is a strict ancestor of C1,
    the tip of [feature]; after the merge [main] is still at C0. *)
Lemma executeMerge_fastforward_keeps_refs_witness :
  (is_ancestor repo_behind C0 C1 = true ∧ C0 ≠ C1) ∧
  ∃ r', executeMerge (E := spec_engine) (branch_at main_ref C0)
          (Some (branch_at feature_ref C1)) repo_behind = (Returned tt, r') ∧
        refs r' = refs repo_behind ∧ commits r' = commits repo_behind.
Proof.
  split.
  - split; [vm_compute; reflexivity|]. apply N.eqb_neq. vm_compute. reflexivity.
  - apply (executeMerge_fastforward_keeps_refs (E := spec_engine)).
    vm_compute. reflexivity.
Defined.

(** The fast-forward of [repo_behind] changes nothing at all. *)
Lemma executeMerge_behind_run :
  executeMerge (E := spec_engine) (branch_at main_ref C0)
    (Some (branch_at feature_ref C1)) repo_behind = (Returned tt, repo_behind).
Proof. vm_compute. reflexivity. Qed.

(** C5 (the code departs from the claim).  In [repo_ahead] the tip of
    [feature], C0, is an ancestor of the tip of [main], C1.  When the analysis
    reports the merge as up to date, [executeMerge] is not a no-op: it does
    not return with the repository unchanged.  (It throws, or it has created a
    commit.) *)
Theorem executeMerge_up_to_date_not_noop (E : Libgit2) :
  merge_analysis repo_ahead [C0] = GitOk GIT_MERGE_ANALYSIS_UP_TO_DATE →
  executeMerge (branch_at main_ref C1) (Some (branch_at feature_ref C0)) repo_ahead
  ≠ (Returned tt, repo_ahead).
Proof.
  intros Han Hrun.
  assert (Hff : (performFastforward (branch_at main_ref C1)
                   (Some (branch_at feature_ref C0)) repo_ahead).1 = Returned false).
  { unfold performFastforward, getLastCommit, git_annotated_commit_lookup,
      git_commit_lookup, git_merge_analysis. unfold_cpp. simpl.
    replace (commits repo_ahead !! C0) with (Some commit0) by (vm_compute; reflexivity).
    rewrite Han. reflexivity. }
  apply (executeMerge_returned _ _ _ _ Hff) in Hrun.
  apply executeMergeCommit_returned in Hrun as (iw & headRef & _ & _ & _ & Hr').
  apply (f_equal commits) in Hr'. rewrite commits_update_reference in Hr'. simpl in Hr'.
  match type of Hr' with _ = <[?i := ?c]> _ =>
    assert (Hc : objects !! i = Some c) by (rewrite Hr' at 1; apply lookup_insert_eq) end.
  destruct (objects_parents _ _ Hc) as [_ Hm]. exact (Hm eq_refl).
Qed.

(** C5, with the engine of the specification: the merge returns normally and
    [main] has moved from C1 to a new commit. *)
Lemma executeMerge_up_to_date_not_noop_witness :
  (is_ancestor repo_ahead C0 C1 = true ∧
   (executeMerge (E := spec_engine) (branch_at main_ref C1)
      (Some (branch_at feature_ref C0)) repo_ahead).1 = Returned tt) ∧
  executeMerge (E := spec_engine) (branch_at main_ref C1)
    (Some (branch_at feature_ref C0)) repo_ahead ≠ (Returned tt, repo_ahead).
Proof.
  split; [evaluate|].
  apply (executeMerge_up_to_date_not_noop spec_engine).
  vm_compute. reflexivity.
Defined.

(** ** Conflicts *)

Lemma pair_fst_snd {A B : Type} (p : A * B) (a : A) : p.1 = a → p = (a, p.2).
Proof. destruct p. simpl. by intros ->. Qed.

Section Conflict_facts.
Context `{E : Libgit2}.

Lemma performFastforward_thrown this target r e r' :
  performFastforward this target r = (Thrown e, r') → not_conflict_report e.
Proof.
  unfold performFastforward, getLastCommit. unfold_cpp. intros H.
  repeat case_match; simplify_eq; intros ? Hwhat; cbn in Hwhat; discriminate Hwhat.
Qed.

Lemma executeMergeCommit_thrown this r e r' :
  executeMergeCommit this r = (Thrown e, r') → not_conflict_report e.
Proof.
  unfold executeMergeCommit. unfold_cpp. intros H.
  repeat case_match; simplify_eq; intros ? Hwhat; cbn in Hwhat; discriminate Hwhat.
Qed.

(** C3 (the code departs from the claim).  A merge that is not a
    fast-forward never ends as the claim says a conflicting merge ends, with a
    returned result, no commit and the conflict entries in the index.  For
    every engine, [executeMerge] either throws, or it returns after
    [executeMergeCommit] has created a commit on top of the commit HEAD
    resolved to, has moved HEAD onto it, and has left an index without any
    conflict entry.  The target branch is not handed to [git_merge] (see
    [executeMerge_ignores_target]), so a conflict between the two branches is
    not found. *)
Theorem executeMerge_conflict_never_a_result this target r :
  (performFastforward this (Some target) r).1 = Returned false →
  (∃ e, (executeMerge this (Some target) r).1 = Thrown e) ∨
  ((executeMerge this (Some target) r).1 = Returned tt ∧
   git_index_has_conflicts (index (executeMerge this (Some target) r).2) = false ∧
   ∃ headRef tree,
     git_repository_head r = GitOk headRef ∧
     let c := Commit_obj tree [ref_target headRef] message in
     commits (executeMerge this (Some target) r).2 !! hash_commit c = Some c ∧
     git_repository_head (executeMerge this (Some target) r).2
     = GitOk (Reference (ref_name headRef) (hash_commit c))).
Proof.
  intros Hff.
  destruct (executeMerge this (Some target) r) as [[[]|e] r'] eqn:Hrun;
    [right|left; by eexists].
  pose proof (executeMerge_returned _ _ _ _ Hff Hrun) as Hmc.
  split; [done|]. split; [by apply (executeMergeCommit_clean this r)|].
  apply executeMergeCommit_head in Hmc as (iw & headRef & _ & Hhead & Hc).
  cbv zeta in Hc. destruct Hc as (Hh' & Hc & _).
  exists headRef, (hash_tree (index_tree iw.1)). cbv zeta. done.
Qed.

(** The explicit throw of lines 212-215.  When the merge step, which is given
    no head, leaves an index with conflicts, [executeMerge] ends by throwing
    [runtime_error "Merge conflicts detected."]: no commit is created, no
    reference and not HEAD is moved, nothing is rolled back, and the index is
    the one the merge step left. *)
Theorem executeMerge_conflicts_thrown this target r iw :
  (performFastforward this (Some target) r).1 = Returned false →
  merge_heads r [] = GitOk iw →
  git_index_has_conflicts iw.1 = true →
  ∃ r', executeMerge this (Some target) r
        = (Thrown (runtime_error "Merge conflicts detected."), r') ∧
        commits r' = commits r ∧ refs r' = refs r ∧ HEAD r' = HEAD r ∧
        index r' = iw.1.
Proof.
  intros Hff Hm Hc. rewrite executeMerge_step by done.
  unfold executeMergeCommit, git_merge, git_repository_index. unfold_cpp.
  rewrite Hm. cbn [index set_worktree]. rewrite Hc.
  eexists. split; [reflexivity|]. done.
Qed.

(** C4 (amended).  [getConflictingFiles] returns, in index order, the path
    of the "ours" entry of every conflict that has one, and nothing else: a
    conflict without an "ours" entry is not reported, and no path without
    conflict entries is. *)
Theorem getConflictingFiles_ours this r :
  ∃ files,
    getConflictingFiles this r = (Returned files, r) ∧
    files = omap ours_path (index r) ∧
    ∀ p, p ∈ files ↔ ∃ a e t, Conflicted a (Some e) t ∈ index r ∧ path e = p.
Proof.
  exists (omap ours_path (index r)). split; [apply getConflictingFiles_eq|].
  split; [done|]. intros p. rewrite list_elem_of_omap. split.
  - intros ([e|a [e|] t] & Hin & Hp); simplify_eq/=. eauto.
  - intros (a & e & t & Hin & <-). eexists. split; [exact Hin|done].
Qed.

(** C10.  After a normal return of [executeMergeCommit] the index has no
    conflict and [getConflictingFiles] returns the empty list; so
    [executeMerge] never throws its report "Merge completed with
    conflicts". *)
Theorem executeMerge_conflict_report_unreachable this target r :
  (∀ r', executeMergeCommit this r = (Returned tt, r') →
         git_index_has_conflicts (index r') = false ∧
         getConflictingFiles this r' = (Returned [], r')) ∧
  ∀ n, (executeMerge this target r).1
       ≠ Thrown (runtime_error
                   ("Merge completed with conflicts. Files in conflict: " +:+ n)).
Proof.
  split.
  - intros r' Hmc. pose proof (executeMergeCommit_clean _ _ _ Hmc) as Hclean.
    split; [done|]. rewrite getConflictingFiles_eq.
    by rewrite (no_conflicts_no_paths _ Hclean).
  - intros n. destruct target as [target|]; [|discriminate].
    destruct (performFastforward this (Some target) r) as [[[]|e] r1] eqn:Hff.
    + unfold executeMerge. unfold_cpp. rewrite Hff. discriminate.
    + rewrite executeMerge_step by (by rewrite Hff).
      destruct (executeMergeCommit this r) as [[[]|e] r2] eqn:Hmc.
      * pose proof (executeMergeCommit_clean _ _ _ Hmc) as Hclean.
        rewrite (no_conflicts_no_paths _ Hclean). discriminate.
      * intros [= He]. by apply (executeMergeCommit_thrown _ _ _ _ Hmc n).
    + unfold executeMerge. unfold_cpp. rewrite Hff.
      intros [= He]. by apply (performFastforward_thrown _ _ _ _ _ Hff n).
Qed.
End Conflict_facts.

(** C3, in the second scenario of section 8 of the specification
    ([repo_same_path]): the base is C0, [main] and [feature] both changed
    [f.txt], and the three-way comparison of section 4.2 gives the conflict
    [f.txt] with the three stages "x", "z" and "w".  With the engine of the
    specification [executeMerge] returns: [main] has moved to a new commit
    with the single parent C2 and the tree of C2, and the index has no
    conflict entry. *)
Lemma executeMerge_conflict_never_a_result_witness :
  (merge_base repo_same_path C2 Cw = Some C0 ∧
   spec_merge_heads repo_same_path [Cw]
   = GitOk ([Conflicted (Some (IndexEntry "f.txt" blob_x))
               (Some (IndexEntry "f.txt" blob_z))
               (Some (IndexEntry "f.txt" blob_w))], workdir repo_same_path) ∧
   (executeMerge (E := spec_engine) (branch_at main_ref C2)
      (Some (branch_at feature_ref Cw)) repo_same_path).1 = Returned tt ∧
   index (executeMerge (E := spec_engine) (branch_at main_ref C2)
            (Some (branch_at feature_ref Cw)) repo_same_path).2
   = [Staged (IndexEntry "f.txt" blob_z)] ∧
   refs (executeMerge (E := spec_engine) (branch_at main_ref C2)
           (Some (branch_at feature_ref Cw)) repo_same_path).2 !! main_ref
   = Some (spec_hash_commit (Commit_obj (spec_hash_tree tree2) [C2] message)) ∧
   commits repo_same_path
     !! spec_hash_commit (Commit_obj (spec_hash_tree tree2) [C2] message) = None ∧
   (performFastforward (E := spec_engine) (branch_at main_ref C2)
      (Some (branch_at feature_ref Cw)) repo_same_path).1 = Returned false) ∧
  ((∃ e, (executeMerge (E := spec_engine) (branch_at main_ref C2)
            (Some (branch_at feature_ref Cw)) repo_same_path).1 = Thrown e) ∨
   ((executeMerge (E := spec_engine) (branch_at main_ref C2)
       (Some (branch_at feature_ref Cw)) repo_same_path).1 = Returned tt ∧
    git_index_has_conflicts
      (index (executeMerge (E := spec_engine) (branch_at main_ref C2)
                (Some (branch_at feature_ref Cw)) repo_same_path).2) = false ∧
    ∃ headRef tree,
      git_repository_head repo_same_path = GitOk headRef ∧
      let c := Commit_obj tree [ref_target headRef] message in
      commits (executeMerge (E := spec_engine) (branch_at main_ref C2)
                 (Some (branch_at feature_ref Cw)) repo_same_path).2
        !! spec_hash_commit c = Some c ∧
      git_repository_head
        (executeMerge (E := spec_engine) (branch_at main_ref C2)
           (Some (branch_at feature_ref Cw)) repo_same_path).2
      = GitOk (Reference (ref_name headRef) (spec_hash_commit c)))).
Proof.
  split; [evaluate|].
  apply (executeMerge_conflict_never_a_result (E := spec_engine)).
  vm_compute. reflexivity.
Defined.

(** The same merge with the engine that refuses a merge without heads:
    [executeMerge] throws "Failed to prepare merge", and the index, HEAD and
    the branches stay as they were; again no conflict entry is in the
    index. *)
Lemma executeMerge_same_path_refused :
  (executeMerge (E := strict_engine) (branch_at main_ref C2)
     (Some (branch_at feature_ref Cw)) repo_same_path).1
  = Thrown (runtime_error "Failed to prepare merge: no heads to merge") ∧
  index (executeMerge (E := strict_engine) (branch_at main_ref C2)
           (Some (branch_at feature_ref Cw)) repo_same_path).2
  = [Staged (IndexEntry "f.txt" blob_z)] ∧
  HEAD (executeMerge (E := strict_engine) (branch_at main_ref C2)
          (Some (branch_at feature_ref Cw)) repo_same_path).2 = Symbolic main_ref ∧
  refs (executeMerge (E := strict_engine) (branch_at main_ref C2)
          (Some (branch_at feature_ref Cw)) repo_same_path).2 !! main_ref = Some C2.
Proof. evaluate. Qed.

(** The throw of lines 212-215 at [repo_conflicted], where a conflict is in
    the index before the merge starts: the merge throws and the conflict stays
    in the index. *)
Lemma executeMerge_conflicts_thrown_witness :
  ∃ r', executeMerge (E := spec_engine) main_branch (Some feature_branch) repo_conflicted
        = (Thrown (runtime_error "Merge conflicts detected."), r') ∧
        commits r' = commits repo_conflicted ∧ refs r' = refs repo_conflicted ∧
        HEAD r' = HEAD repo_conflicted ∧
        index r' = (index repo_conflicted, workdir repo_conflicted).1.
Proof.
  apply (executeMerge_conflicts_thrown (E := spec_engine) main_branch feature_branch
           repo_conflicted (index repo_conflicted, workdir repo_conflicted));
    vm_compute; reflexivity.
Defined.

(** A conflict that is in the index before the merge starts is reported by
    an exception, the same [runtime_error] as every other failure, and not by
    a returned value.  (The conflict of [repo_conflicted] is not what
    comparing [main] with [feature] gives; that comparison is never made.) *)
Lemma executeMerge_conflict_is_exception :
  (performFastforward (E := spec_engine) main_branch (Some feature_branch)
     repo_conflicted).1 = Returned false ∧
  conflicting_paths
    (index (executeMerge (E := spec_engine) main_branch (Some feature_branch)
              repo_conflicted).2) = ["f.txt"] ∧
  (executeMerge (E := spec_engine) main_branch (Some feature_branch) repo_conflicted).1
  = Thrown (runtime_error "Merge conflicts detected.").
Proof. evaluate. Qed.

(** C4 as stated fails: the conflict on [f.txt] in [repo_conflicted] has no
    "ours" entry (our side deleted the file); [f.txt] is in conflict and
    [getConflictingFiles] reports nothing. *)
Lemma getConflictingFiles_misses_deleted :
  conflicting_paths (index repo_conflicted) = ["f.txt"] ∧
  (getConflictingFiles main_branch repo_conflicted).1 = Returned [].
Proof. evaluate. Qed.

(** C10, at [repo_diverged]: [executeMergeCommit] returns normally and the
    conflict list is empty afterwards. *)
Lemma executeMerge_conflict_report_unreachable_witness :
  git_index_has_conflicts
    (index (executeMergeCommit (E := spec_engine) main_branch repo_diverged).2) = false ∧
  getConflictingFiles main_branch
    (executeMergeCommit (E := spec_engine) main_branch repo_diverged).2
  = (Returned [], (executeMergeCommit (E := spec_engine) main_branch repo_diverged).2).
Proof.
  apply (executeMerge_conflict_report_unreachable (E := spec_engine) main_branch
           (Some feature_branch) repo_diverged).
  apply pair_fst_snd. vm_compute. reflexivity.
Defined.

(** ** The cached commit of a handle *)

(** C6 (amended).  [getLastCommit] returns the commit that the reference
    pointed at when the handle was constructed, in every later state of the
    repository: the value is cached and never resolved again. *)
Theorem getLastCommit_cached (ref : git_reference) (r r1 : git_repository) (b : Branch) :
  Branch_new (Some ref) r = (Returned b, r1) →
  ∀ r' : git_repository,
    getLastCommit b r' = (Returned (Commit_create (ref_target ref)), r').
Proof.
  unfold Branch_new, git_reference_peel, getLastCommit. unfold_cpp. intros H r'.
  repeat case_match; simplify_eq. done.
Qed.

(** C6, at [repo_diverged]: the handle on [main], after a commit has been made
    on [main]. *)
Lemma getLastCommit_cached_witness :
  getLastCommit main_branch (executeMergeCommit (E := spec_engine) main_branch repo_diverged).2
  = (Returned (Commit_create (ref_target (Reference main_ref C1))),
     (executeMergeCommit (E := spec_engine) main_branch repo_diverged).2).
Proof.
  apply (getLastCommit_cached (Reference main_ref C1) repo_diverged repo_diverged main_branch).
  vm_compute. reflexivity.
Defined.

(** C6 as stated fails: [main_branch] is the handle constructed on [main] in
    [repo_diverged]; [executeMergeCommit] then moves [main] to a new commit;
    [getLastCommit] still returns C1, which is no longer the tip. *)
Lemma getLastCommit_stale :
  (Branch_new (Some (Reference main_ref C1)) repo_diverged).1 = Returned main_branch ∧
  current_tip main_branch repo_diverged = Some C1 ∧
  current_tip main_branch (executeMergeCommit (E := spec_engine) main_branch repo_diverged).2
  = Some (spec_hash_commit merged_commit) ∧
  (getLastCommit main_branch
     (executeMergeCommit (E := spec_engine) main_branch repo_diverged).2).1
  = Returned (Commit_create C1) ∧
  N.eqb C1 (spec_hash_commit merged_commit) = false.
Proof. evaluate. Qed.

(** ** Checkout *)

Section Checkout_facts.
Context `{E : Libgit2}.

(** The two steps of [checkout]: once HEAD is set, a failure of the checkout
    of the tree is thrown with HEAD left where it was set. *)
Lemma checkout_second_step this target branchRef r r1 m :
  _branch target = Some branchRef →
  git_repository_set_head (Some (ref_name branchRef)) r = GitOk (tt, r1) →
  checkout_head_tree r1 GIT_CHECKOUT_SAFE = GitErr m →
  checkout this (Some target) r
  = (Thrown (runtime_error ("Checkout failed: " +:+ m)), r1).
Proof.
  intros Hb Hhead Hco. unfold checkout, git_checkout_head. rewrite Hb. unfold_cpp.
  cbn [git_reference_name fmap option_fmap option_map]. rewrite Hhead, Hco. done.
Qed.

(** When HEAD cannot be set, [checkout] has changed nothing. *)
Lemma checkout_first_step this target branchRef r m :
  _branch target = Some branchRef →
  git_repository_set_head (Some (ref_name branchRef)) r = GitErr m →
  checkout this (Some target) r
  = (Thrown (runtime_error ("Could not update HEAD to target branch: " +:+ m)), r).
Proof.
  intros Hb Hhead. unfold checkout. rewrite Hb. unfold_cpp.
  cbn [git_reference_name fmap option_fmap option_map]. rewrite Hhead. done.
Qed.

(** The same two steps in [performFastforward]. *)
Lemma performFastforward_second_step this target c analysis r r1 m :
  _commit (_lastCommit target) = Some c →
  is_Some (commits r !! c) →
  merge_analysis r [c] = GitOk analysis →
  Z.land analysis GIT_MERGE_ANALYSIS_FASTFORWARD ≠ 0 →
  git_repository_set_head (git_reference_name (_branch this)) r = GitOk (tt, r1) →
  checkout_head_tree r1 GIT_CHECKOUT_SAFE = GitErr m →
  performFastforward this (Some target) r
  = (Thrown (runtime_error ("Fast-forward checkout failed: " +:+ m)), r1).
Proof.
  intros Hc [co Hco] Han Hff Hhead Hcheck.
  unfold performFastforward, getLastCommit, git_annotated_commit_lookup,
    git_commit_lookup, git_merge_analysis, git_checkout_head. unfold_cpp.
  rewrite Hc, Hco, Han. rewrite decide_True by done. by rewrite Hhead, Hcheck.
Qed.

(** C7 (amended).  [checkout] first attaches HEAD to the target branch and
    then checks out the tree, and it undoes nothing: when the second step
    fails, the exception leaves HEAD on the target branch and the index and
    the working directory as they were. *)
Theorem checkout_HEAD_moved_on_failure this target branchRef tip r m :
  _branch target = Some branchRef →
  refs r !! ref_name branchRef = Some tip →
  is_Some (commits r !! tip) →
  String.prefix "refs/heads/" (ref_name branchRef) = true →
  checkout_head_tree (set_HEAD (Symbolic (ref_name branchRef)) r) GIT_CHECKOUT_SAFE
  = GitErr m →
  ∃ r', checkout this (Some target) r
        = (Thrown (runtime_error ("Checkout failed: " +:+ m)), r') ∧
        HEAD r' = Symbolic (ref_name branchRef) ∧
        index r' = index r ∧ workdir r' = workdir r ∧ refs r' = refs r.
Proof.
  intros Hb Href [co Hco] Hlocal Hcheck.
  exists (set_HEAD (Symbolic (ref_name branchRef)) r). split; [|done].
  apply (checkout_second_step _ _ branchRef); [done| |done].
  unfold git_repository_set_head. by rewrite Href, Hco, Hlocal.
Qed.
End Checkout_facts.

(** C7, at [repo_dirty] with the engine of the specification. *)
Lemma checkout_HEAD_moved_on_failure_witness :
  ∃ r', checkout (E := spec_engine) main_branch (Some feature_branch) repo_dirty
        = (Thrown (runtime_error ("Checkout failed: " +:+ "DirtyWorkingTree")), r') ∧
        HEAD r' = Symbolic (ref_name (Reference feature_ref C2)) ∧
        index r' = index repo_dirty ∧ workdir r' = workdir repo_dirty ∧
        refs r' = refs repo_dirty.
Proof.
  apply (checkout_HEAD_moved_on_failure (E := spec_engine) main_branch feature_branch
           (Reference feature_ref C2) C2 repo_dirty "DirtyWorkingTree").
  - reflexivity.
  - vm_compute. reflexivity.
  - exists commit2. vm_compute. reflexivity.
  - vm_compute. reflexivity.
  - vm_compute. reflexivity.
Defined.

(** C7 as stated fails: in [repo_dirty], with [main] checked out, the checkout
    of [feature] throws; afterwards HEAD is on [feature] while the index and
    the working directory still are those of [main]: [g.txt], which [feature]
    does not have, is in both. *)
Lemma checkout_leaves_HEAD_moved :
  (checkout (E := spec_engine) main_branch (Some feature_branch) repo_dirty).1
  = Thrown (runtime_error "Checkout failed: DirtyWorkingTree") ∧
  HEAD repo_dirty = Symbolic main_ref ∧
  HEAD (checkout (E := spec_engine) main_branch (Some feature_branch) repo_dirty).2
  = Symbolic feature_ref ∧
  index (checkout (E := spec_engine) main_branch (Some feature_branch) repo_dirty).2
  = index repo_dirty ∧
  index_tree (index repo_dirty) !! "g.txt" = Some blob_y ∧
  workdir (checkout (E := spec_engine) main_branch (Some feature_branch) repo_dirty).2
    !! "g.txt" = Some blob_y ∧
  commit_tree_of repo_dirty C2 ≫= (.!! "g.txt") = None.
Proof. evaluate. Qed.

Lemma dirty_set_HEAD h r : dirty (set_HEAD h r) = dirty r.
Proof. reflexivity. Qed.

Lemma git_repository_set_head_ok n r r1 :
  git_repository_set_head (Some n) r = GitOk (tt, r1) →
  r1 = set_HEAD (HEAD r1) r ∧
  ∀ tip, refs r !! n = Some tip →
         HEAD r1 = (if String.prefix "refs/heads/" n then Symbolic n else Detached tip).
Proof.
  unfold git_repository_set_head. intros H.
  repeat case_match; simplify_eq; (split; [done|]); intros tip' ?; by simplify_eq.
Qed.

(** The checkout engine of the specification refuses a dirty working tree in
    safe mode, and with the dirty-working-tree error when HEAD resolves to a
    commit whose tree is stored. *)
Lemma spec_checkout_dirty r :
  dirty r = true →
  ∃ m, spec_checkout_head_tree r GIT_CHECKOUT_SAFE = GitErr m ∧
       ∀ headRef tree, git_repository_head r = GitOk headRef →
                       commit_tree_of r (ref_target headRef) = Some tree →
                       m = "DirtyWorkingTree".
Proof.
  intros Hdirty. unfold spec_checkout_head_tree. rewrite Hdirty.
  destruct (git_repository_head r) as [headRef|m]; [|eexists; split; [done|]; by intros].
  destruct (commit_tree_of r (ref_target headRef)) eqn:Ht; eexists; (split; [done|]);
    intros; simplify_eq; congruence.
Qed.

(** C8.  With the checkout engine of the specification: when a tracked file
    has local modifications that are not staged, [checkout] fails and writes
    neither the working directory nor the index; the failure is the engine's
    dirty-working-tree error whenever the target branch exists and its tree is
    stored.  ([checkout] always asks for the safe strategy; it has no force
    flag.) *)
Theorem checkout_dirty_refused this target branchRef r :
  _branch target = Some branchRef →
  dirty r = true →
  ∃ what r',
    checkout (E := spec_engine) this (Some target) r = (Thrown (runtime_error what), r') ∧
    workdir r' = workdir r ∧ index r' = index r ∧
    ∀ tip tree, refs r !! ref_name branchRef = Some tip →
                commit_tree_of r tip = Some tree →
                what = "Checkout failed: DirtyWorkingTree".
Proof.
  intros Hb Hdirty.
  destruct (git_repository_set_head (Some (ref_name branchRef)) r) as [[[] r1]|m] eqn:Hhead.
  - destruct (git_repository_set_head_ok _ _ _ Hhead) as [Hr1 Hh].
    assert (Hdirty1 : dirty r1 = true) by (by rewrite Hr1, dirty_set_HEAD).
    destruct (spec_checkout_dirty r1 Hdirty1) as (m & Hm & Hwhy).
    exists ("Checkout failed: " +:+ m), r1.
    split; [by apply (checkout_second_step (E := spec_engine) _ _ branchRef)|].
    split; [by rewrite Hr1|]. split; [by rewrite Hr1|].
    intros tip tree Href Htree.
    rewrite (Hwhy (Reference (match HEAD r1 with Symbolic n => n | Detached _ => "HEAD" end) tip)
               tree); [done| |].
    + unfold git_repository_head. rewrite (Hh tip Href).
      destruct (String.prefix _ _); [|done].
      rewrite Hr1. cbn [refs set_HEAD]. by rewrite Href.
    + cbn [ref_target]. rewrite Hr1. exact Htree.
  - exists ("Could not update HEAD to target branch: " +:+ m), r.
    split; [by apply (checkout_first_step (E := spec_engine) _ _ branchRef)|].
    split; [done|]. split; [done|].
    intros tip tree Href Htree. exfalso.
    unfold git_repository_set_head in Hhead. rewrite Href in Hhead.
    unfold commit_tree_of in Htree. destruct (commits r !! tip); discriminate.
Qed.

(** C8, at [repo_dirty]: [f.txt] is edited and not staged. *)
Lemma checkout_dirty_refused_witness :
  ∃ what r',
    checkout (E := spec_engine) main_branch (Some feature_branch) repo_dirty
    = (Thrown (runtime_error what), r') ∧
    workdir r' = workdir repo_dirty ∧ index r' = index repo_dirty ∧
    ∀ tip tree, refs repo_dirty !! ref_name (Reference feature_ref C2) = Some tip →
                commit_tree_of repo_dirty tip = Some tree →
                what = "Checkout failed: DirtyWorkingTree".
Proof.
  apply (checkout_dirty_refused main_branch feature_branch (Reference feature_ref C2)
           repo_dirty); vm_compute; reflexivity.
Defined.

(** In [repo_dirty] the error is the dirty-working-tree error and the edited
    file is still in the working directory. *)
Lemma checkout_dirty_run :
  dirty repo_dirty = true ∧
  (checkout (E := spec_engine) main_branch (Some feature_branch) repo_dirty).1
  = Thrown (runtime_error "Checkout failed: DirtyWorkingTree") ∧
  workdir (checkout (E := spec_engine) main_branch (Some feature_branch) repo_dirty).2
    !! "f.txt" = Some blob_w.
Proof. evaluate. Qed.

(** ** The merge commit and HEAD *)

Section Merge_commit_facts.
Context `{E : Libgit2}.

(** C9.  When [executeMerge] creates the merge commit (the merge is not a
    fast-forward and the call returns), the commit has one parent, the
    commit HEAD resolved to, and it is written through HEAD: HEAD then
    resolves to the new commit.  A branch that HEAD is not attached to keeps
    its tip, and the handle the merge is invoked on plays no part: any other
    handle gives the same result. *)
Theorem executeMerge_commit_on_HEAD this target r r' :
  (performFastforward this (Some target) r).1 = Returned false →
  executeMerge this (Some target) r = (Returned tt, r') →
  ∃ headRef tree,
    let c := Commit_obj tree [ref_target headRef] message in
    git_repository_head r = GitOk headRef ∧
    commits r' !! hash_commit c = Some c ∧
    git_repository_head r' = GitOk (Reference (ref_name headRef) (hash_commit c)) ∧
    (∀ n, HEAD r ≠ Symbolic n → refs r' !! n = refs r !! n) ∧
    (∀ other, executeMerge other (Some target) r = (Returned tt, r')).
Proof.
  intros Hff Hrun.
  pose proof (executeMerge_returned _ _ _ _ Hff Hrun) as Hmc.
  pose proof Hmc as (iw & headRef & _ & _ & Hhead & Hr')%executeMergeCommit_returned.
  cbv zeta in Hr'.
  exists headRef, (hash_tree (index_tree iw.1)). cbv zeta.
  set (c := Commit_obj (hash_tree (index_tree iw.1)) [ref_target headRef] message) in *.
  split; [done|]. split; [|split; [|split]].
  - rewrite Hr', commits_update_reference. cbn [commits set_commits].
    apply lookup_insert_eq.
  - unfold git_repository_head in Hhead. destruct (HEAD r) as [n|t] eqn:Hh.
    + rewrite (update_reference_attached n) in Hr' by exact Hh. rewrite Hr'.
      unfold git_repository_head.
      cbn [HEAD refs set_refs set_commits set_trees set_worktree].
      rewrite Hh, lookup_insert_eq. destruct (refs r !! n); by simplify_eq.
    + rewrite (update_reference_detached t) in Hr' by exact Hh. rewrite Hr'.
      unfold git_repository_head. cbn [HEAD set_HEAD]. by simplify_eq.
  - intros n Hn. destruct (HEAD r) as [n'|t] eqn:Hh.
    + rewrite (update_reference_attached n') in Hr' by exact Hh. rewrite Hr'.
      cbn [refs set_refs]. apply lookup_insert_ne. congruence.
    + rewrite (update_reference_detached t) in Hr' by exact Hh. by rewrite Hr'.
  - intros other.
    assert (Hother : (performFastforward other (Some target) r).1 = Returned false)
      by (by rewrite (performFastforward_other this other)).
    rewrite (executeMerge_step _ _ _ Hother).
    rewrite (executeMerge_step _ _ _ Hff) in Hrun. exact Hrun.
Qed.
End Merge_commit_facts.

(** C9, at [repo_diverged]: HEAD is attached to [main]; the merge is invoked on
    the handle of [feature] and commits on [main]; [feature] keeps its tip. *)
Lemma executeMerge_commit_on_HEAD_witness :
  ∃ headRef tree,
    let r' := (executeMerge (E := spec_engine) feature_branch (Some feature_branch)
                 repo_diverged).2 in
    let c := Commit_obj tree [ref_target headRef] message in
    git_repository_head repo_diverged = GitOk headRef ∧
    commits r' !! spec_hash_commit c = Some c ∧
    git_repository_head r' = GitOk (Reference (ref_name headRef) (spec_hash_commit c)) ∧
    (∀ n, HEAD repo_diverged ≠ Symbolic n → refs r' !! n = refs repo_diverged !! n) ∧
    (∀ other, executeMerge (E := spec_engine) other (Some feature_branch) repo_diverged
              = (Returned tt, r')).
Proof.
  apply (executeMerge_commit_on_HEAD (E := spec_engine) feature_branch feature_branch
           repo_diverged).
  - vm_compute. reflexivity.
  - apply pair_fst_snd. vm_compute. reflexivity.
Defined.

(** The merge invoked on [feature] has moved [main]. *)
Lemma executeMerge_on_other_branch_run :
  HEAD repo_diverged = Symbolic main_ref ∧
  (executeMerge (E := spec_engine) feature_branch (Some feature_branch) repo_diverged).1
  = Returned tt ∧
  refs (executeMerge (E := spec_engine) feature_branch (Some feature_branch)
          repo_diverged).2 !! main_ref = Some (spec_hash_commit merged_commit) ∧
  refs (executeMerge (E := spec_engine) feature_branch (Some feature_branch)
          repo_diverged).2 !! feature_ref = Some C2.
Proof. evaluate. Qed.

(** * Further properties of the class *)

(** ** Listing the branches *)

Lemma getAllBranches_loop_returned its acc r bs r' :
  getAllBranches_loop its acc r = (Returned bs, r') →
  r' = r ∧ bs = acc ++ (handle_of <$> its) ∧
  Forall (λ ref, is_Some (commits r !! ref_target ref)) its.
Proof.
  revert acc. induction its as [|ref its IH]; intros acc; cbn [getAllBranches_loop].
  - unfold_cpp. intros ?; simplify_eq. by rewrite app_nil_r.
  - unfold mbind, cpp_bind, create, Branch_new, git_reference_peel. unfold_cpp.
    destruct (commits r !! ref_target ref) as [c|] eqn:Hc; [|discriminate].
    intros (-> & -> & Hall)%IH. split; [done|]. split.
    + by rewrite <- app_assoc.
    + constructor; [by rewrite Hc|done].
Qed.

Lemma getAllBranches_loop_resolved its acc r :
  Forall (λ ref, is_Some (commits r !! ref_target ref)) its →
  getAllBranches_loop its acc r = (Returned (acc ++ (handle_of <$> its)), r).
Proof.
  intros Hall. revert acc. induction Hall as [|ref its [c Hc] _ IH]; intros acc;
    cbn [getAllBranches_loop].
  - unfold_cpp. by rewrite app_nil_r.
  - unfold mbind, cpp_bind, create, Branch_new, git_reference_peel. unfold_cpp.
    rewrite Hc, IH. by rewrite <- app_assoc.
Qed.

Lemma getAllBranches_loop_dangling its acc r :
  Exists (λ ref, commits r !! ref_target ref = None) its →
  getAllBranches_loop its acc r
  = (Thrown (runtime_error "Failed to peel the reference to commit object."), r).
Proof.
  intros Hex. revert acc. induction its as [|ref its IH]; intros acc.
  - by apply Exists_nil in Hex.
  - cbn [getAllBranches_loop].
    unfold mbind, cpp_bind, create, Branch_new, git_reference_peel. unfold_cpp.
    destruct (commits r !! ref_target ref) as [c|] eqn:Hc; [|done].
    apply IH. apply Exists_cons in Hex as [Hex|Hex]; [congruence|done].
Qed.

(** The references that the branch iterator yields. *)
Lemma git_branch_iterator_elem r ref :
  ref ∈ branch_references r ↔
  refs r !! ref_name ref = Some (ref_target ref) ∧ is_branch_name (ref_name ref) = true.
Proof.
  unfold branch_references. rewrite merge_sort_Permutation.
  rewrite list_elem_of_fmap. split.
  - intros ([n t] & -> & [Hb Hin%elem_of_map_to_list]%list_elem_of_filter). simpl in *.
    split; [done|]. by apply Is_true_true.
  - intros [Href Hb]. exists (ref_name ref, ref_target ref). split; [by destruct ref|].
    apply list_elem_of_filter. split; [by apply Is_true_true|].
    by apply elem_of_map_to_list.
Qed.

(** The order by name is total and transitive. *)
Lemma name_le_total : Total name_le.
Proof.
  intros a b. unfold name_le.
  destruct (String.leb_total (ref_name a) (ref_name b)) as [H|H]; rewrite H; simpl; auto.
Qed.

Lemma string_leb_trans (a b c : string) :
  String.leb a b = true → String.leb b c = true → String.leb a c = true.
Proof.
  unfold String.leb. revert b c.
  induction a as [|x a IH]; intros [|y b] [|z c]; simpl; try done.
  unfold Ascii.compare.
  destruct (N.compare_spec (Ascii.N_of_ascii x) (Ascii.N_of_ascii y)) as [Hxy|Hxy|Hxy];
    destruct (N.compare_spec (Ascii.N_of_ascii y) (Ascii.N_of_ascii z)) as [Hyz|Hyz|Hyz];
    try done.
  - rewrite Hxy, Hyz, N.compare_refl. apply IH.
  - rewrite Hxy. by rewrite (proj2 (N.compare_lt_iff _ _) Hyz).
  - rewrite <- Hyz. by rewrite (proj2 (N.compare_lt_iff _ _) Hxy).
  - by rewrite (proj2 (N.compare_lt_iff _ _) (N.lt_trans _ _ _ Hxy Hyz)).
Qed.

Lemma name_le_trans : Transitive name_le.
Proof.
  intros a b c. unfold name_le. rewrite !Is_true_true. apply string_leb_trans.
Qed.

(** No two of the references that the branch iterator yields have the same
    name, and they come sorted by name. *)
Lemma branch_references_names r : NoDup (ref_name <$> branch_references r).
Proof.
  unfold branch_references. rewrite merge_sort_Permutation.
  rewrite <- list_fmap_compose.
  assert (H : ∀ l : list (string * N), NoDup l.*1 →
     NoDup ((ref_name ∘ (λ nt : string * N, Reference nt.1 nt.2)) <$>
         filter (λ nt : string * N, Is_true (is_branch_name nt.1)) l)).
  { induction l as [|[n t] l IH]; [constructor|].
    intros [Hn Hl]%NoDup_cons. rewrite filter_cons. case_decide; [|auto].
    cbn [fmap list_fmap]. apply NoDup_cons. split; [|auto].
    intros ([n' t'] & Heq & [_ Hin]%list_elem_of_filter)%list_elem_of_fmap.
    simpl in Heq. subst n'. apply Hn. apply list_elem_of_fmap. by exists (n, t'). }
  apply H, NoDup_fst_map_to_list.
Qed.

Lemma branch_references_sorted r : StronglySorted name_le (branch_references r).
Proof.
  apply (StronglySorted_merge_sort name_le
           (Transitive0 := name_le_trans) (Total0 := name_le_total)).
Qed.

(** X1.  When every branch points at a stored commit, [getAllBranches] returns,
    without touching the repository, exactly one handle for each local or
    remote-tracking branch, and the commit cached in the handle is the tip the
    branch has at that moment: a handle is in the list if and only if it is
    the handle of a branch of the repository, no handle is there twice, no two
    handles are on the same name, and the handles are in the order of the
    names of their references. *)
Theorem getAllBranches_handles r :
  (∀ n t, refs r !! n = Some t → is_branch_name n = true → is_Some (commits r !! t)) →
  ∃ bs, getAllBranches r = (Returned bs, r) ∧
        (∀ b, b ∈ bs ↔ ∃ n t, refs r !! n = Some t ∧ is_branch_name n = true ∧
                               b = branch_at n t) ∧
        NoDup bs ∧
        ∃ its, bs = handle_of <$> its ∧ NoDup (ref_name <$> its) ∧
               StronglySorted name_le its.
Proof.
  intros Hwf. unfold getAllBranches, git_branch_iterator_new.
  unfold mbind, cpp_bind, git_read.
  eexists. split; [|split; [|split]].
  - apply getAllBranches_loop_resolved. apply Forall_forall.
    intros ref [Href Hb]%git_branch_iterator_elem. eauto.
  - intros b. cbn [app]. rewrite list_elem_of_fmap. split.
    + intros (ref & -> & [Href Hb]%git_branch_iterator_elem).
      exists (ref_name ref), (ref_target ref). by destruct ref.
    + intros (n & t & Href & Hb & ->). exists (Reference n t). split; [done|].
      by apply git_branch_iterator_elem.
  - cbn [app]. apply (NoDup_fmap_1 (λ b, ref_name <$> _branch b)).
    rewrite <- list_fmap_compose.
    pose proof (NoDup_fmap_2 Some _ (branch_references_names r)) as H.
    by rewrite <- list_fmap_compose in H.
  - exists (branch_references r). split; [done|]. split.
    + apply branch_references_names.
    + apply branch_references_sorted.
Qed.

(** X1, at [repo_diverged]. *)
Lemma getAllBranches_handles_witness :
  ∃ bs, getAllBranches repo_diverged = (Returned bs, repo_diverged) ∧
        (∀ b, b ∈ bs ↔ ∃ n t, refs repo_diverged !! n = Some t ∧
                               is_branch_name n = true ∧ b = branch_at n t) ∧
        NoDup bs ∧
        ∃ its, bs = handle_of <$> its ∧ NoDup (ref_name <$> its) ∧
               StronglySorted name_le its.
Proof.
  apply (getAllBranches_handles repo_diverged).
  intros n t Href _. unfold repo_diverged in Href. cbn [refs] in Href.
  apply lookup_insert_Some in Href as [[_ <-]|[_ Href]];
    [exists commit1; vm_compute; reflexivity|].
  apply lookup_insert_Some in Href as [[_ <-]|[_ Href]];
    [exists commit2; vm_compute; reflexivity|].
  by rewrite lookup_empty in Href.
Defined.

(** X2.  One branch whose commit is missing from the object store makes the
    whole listing fail: [getAllBranches] throws the constructor's
    [runtime_error] and returns no handle, not even for the branches that are
    sound; the repository is untouched. *)
Theorem getAllBranches_dangling r n t :
  refs r !! n = Some t → is_branch_name n = true → commits r !! t = None →
  getAllBranches r
  = (Thrown (runtime_error "Failed to peel the reference to commit object."), r).
Proof.
  intros Href Hb Hc. unfold getAllBranches, git_branch_iterator_new.
  unfold mbind, cpp_bind, git_read.
  apply getAllBranches_loop_dangling. apply Exists_exists.
  exists (Reference n t). split; [|done]. by apply git_branch_iterator_elem.
Qed.

(** X2, at [repo_dangling]. *)
Lemma getAllBranches_dangling_witness :
  getAllBranches repo_dangling
  = (Thrown (runtime_error "Failed to peel the reference to commit object."), repo_dangling).
Proof.
  apply (getAllBranches_dangling repo_dangling "refs/heads/broken" 999%N);
    vm_compute; reflexivity.
Defined.

(** ** Branch names *)

Lemma strip_prefix_Some p s t : strip_prefix p s = Some t ↔ s = p +:+ t.
Proof.
  revert s. induction p as [|a p IH]; intros s; cbn [strip_prefix String.append].
  - split; [by intros [= ->] | by intros ->].
  - destruct s as [|b s]; [split; discriminate|].
    destruct (Ascii.eqb_spec a b) as [->|Hne].
    + rewrite IH. split; [by intros -> | by intros [= ->]].
    + split; [discriminate | intros [= ? ?]; congruence].
Qed.

Lemma prefix_strip_prefix p s : String.prefix p s = true → is_Some (strip_prefix p s).
Proof.
  revert s. induction p as [|a p IH]; intros s; [by eexists|].
  destruct s as [|b s]; cbn [String.prefix strip_prefix]; [discriminate|].
  destruct (Ascii.ascii_dec a b) as [->|Hne]; [|discriminate].
  rewrite Ascii.eqb_refl. apply IH.
Qed.

Lemma prefix_append p t : String.prefix p (p +:+ t) = true.
Proof.
  induction p as [|a p IH]; simpl; [by destruct t|].
  destruct (Ascii.ascii_dec a a); [exact IH | done].
Qed.

Lemma getBranchName_branch this ref s r :
  _branch this = Some ref →
  ref_name ref = "refs/heads/" +:+ s ∨ ref_name ref = "refs/remotes/" +:+ s →
  getBranchName this r = (Returned s, r).
Proof.
  unfold getBranchName, git_read, git_branch_name.
  intros -> [Hn|Hn]; rewrite Hn.
  - by rewrite (proj2 (strip_prefix_Some "refs/heads/" _ s) eq_refl).
  - replace (strip_prefix "refs/heads/" ("refs/remotes/" +:+ s)) with (@None string)
      by reflexivity.
    by rewrite (proj2 (strip_prefix_Some "refs/remotes/" _ s) eq_refl).
Qed.

(** X3.  [getBranchName] returns [s] exactly when the handle's reference is
    [refs/heads/s] or [refs/remotes/s]: the name it returns, put back behind
    its prefix, is the full reference name.  It leaves the repository as it
    is. *)
Theorem getBranchName_returned this r s r' :
  getBranchName this r = (Returned s, r') ↔
  r' = r ∧ ∃ ref, _branch this = Some ref ∧
                  (ref_name ref = "refs/heads/" +:+ s ∨
                   ref_name ref = "refs/remotes/" +:+ s).
Proof.
  split.
  - unfold getBranchName, git_read, git_branch_name.
    destruct (_branch this) as [ref|]; [|discriminate].
    destruct (strip_prefix "refs/heads/" (ref_name ref)) as [t|] eqn:Hl.
    { intros [= -> ->]. apply strip_prefix_Some in Hl. eauto. }
    destruct (strip_prefix "refs/remotes/" (ref_name ref)) as [t|] eqn:Hr; [|discriminate].
    intros [= -> ->]. apply strip_prefix_Some in Hr. eauto.
  - intros (-> & ref & Hb & Hn). by apply (getBranchName_branch this ref).
Qed.

(** X4.  [getBranchName] never throws on a handle that [getAllBranches]
    returned: it returns the branch part of the name of a reference of the
    repository. *)
Theorem getBranchName_of_listed r bs r' b :
  getAllBranches r = (Returned bs, r') → b ∈ bs →
  ∃ s n, getBranchName b r' = (Returned s, r') ∧
         git_reference_name (_branch b) = Some n ∧ is_Some (refs r !! n) ∧
         (n = "refs/heads/" +:+ s ∨ n = "refs/remotes/" +:+ s).
Proof.
  unfold getAllBranches, git_branch_iterator_new. unfold mbind, cpp_bind, git_read.
  intros (-> & -> & _)%getAllBranches_loop_returned Hb. cbn [app] in Hb.
  apply list_elem_of_fmap in Hb as (ref & -> & [Href Hn]%git_branch_iterator_elem).
  unfold is_branch_name in Hn. apply orb_true_iff in Hn.
  assert (∃ s, ref_name ref = "refs/heads/" +:+ s ∨ ref_name ref = "refs/remotes/" +:+ s)
    as [s Hs].
  { destruct Hn as [[s Hs]%prefix_strip_prefix|[s Hs]%prefix_strip_prefix];
      apply strip_prefix_Some in Hs; eauto. }
  exists s, (ref_name ref). split; [|split; [done|split; [by rewrite Href|done]]].
  by apply (getBranchName_branch _ ref).
Qed.

(** X4, at [repo_diverged], for the handle on [main]. *)
Lemma getBranchName_of_listed_witness :
  ∃ s n, getBranchName main_branch repo_diverged = (Returned s, repo_diverged) ∧
         git_reference_name (_branch main_branch) = Some n ∧
         is_Some (refs repo_diverged !! n) ∧
         (n = "refs/heads/" +:+ s ∨ n = "refs/remotes/" +:+ s).
Proof.
  apply (getBranchName_of_listed repo_diverged [feature_branch; main_branch]).
  - vm_compute. reflexivity.
  - apply list_elem_of_further, list_elem_of_here.
Defined.

(** X5.  A handle on a reference that is no branch (a tag, say), or on no
    reference at all, has no branch name: [getBranchName] throws a
    [runtime_error] that starts with "Failed to get branch name: ". *)
Theorem getBranchName_not_a_branch this r :
  (∀ ref, _branch this = Some ref → is_branch_name (ref_name ref) = false) →
  ∃ m, getBranchName this r
       = (Thrown (runtime_error ("Failed to get branch name: " +:+ m)), r).
Proof.
  intros Hnb. unfold getBranchName, git_read, git_branch_name.
  destruct (_branch this) as [ref|]; [|by eexists].
  specialize (Hnb ref eq_refl). unfold is_branch_name in Hnb.
  apply orb_false_iff in Hnb as [Hl Hr].
  destruct (strip_prefix "refs/heads/" (ref_name ref)) as [t|] eqn:Hsl.
  { apply strip_prefix_Some in Hsl. rewrite Hsl, prefix_append in Hl. discriminate. }
  destruct (strip_prefix "refs/remotes/" (ref_name ref)) as [t|] eqn:Hsr.
  { apply strip_prefix_Some in Hsr. rewrite Hsr, prefix_append in Hr. discriminate. }
  by eexists.
Qed.

(** X5, for a handle on the tag [refs/tags/v1]. *)
Lemma getBranchName_not_a_branch_witness :
  ∃ m, getBranchName tag_handle repo_diverged
       = (Thrown (runtime_error ("Failed to get branch name: " +:+ m)), repo_diverged).
Proof.
  apply (getBranchName_not_a_branch tag_handle repo_diverged).
  intros ref [= <-]. reflexivity.
Defined.

(** ** What checkout and merge leave alone *)

Lemma set_HEAD_HEAD r : set_HEAD (HEAD r) r = r.
Proof. by destruct r. Qed.

Section Frame_facts.
Context `{E : Libgit2}.

(** X6.  Whatever its outcome, [checkout] moves no branch and stores no
    object: the references, the commits and the trees are as before. *)
Theorem checkout_store this target r o r' :
  checkout this target r = (o, r') →
  refs r' = refs r ∧ commits r' = commits r ∧ trees r' = trees r.
Proof.
  unfold checkout, git_checkout_head, git_repository_set_head, git_reference_name.
  unfold_cpp. intros H.
  repeat case_match; simplify_eq/=; done.
Qed.

(** X7.  [checkout] reads the target handle by the name of its reference only
    (neither the commit cached in the handle nor the handle it is invoked on
    matters), while [executeMerge] reads the target handle by its cached
    commit only (the reference of the target handle does not matter). *)
Theorem handles_read_by_name_and_by_cache r :
  (∀ this other t1 t2 ref1 ref2,
     _branch t1 = Some ref1 → _branch t2 = Some ref2 → ref_name ref1 = ref_name ref2 →
     checkout this (Some t1) r = checkout other (Some t2) r) ∧
  (∀ this t1 t2,
     _lastCommit t1 = _lastCommit t2 →
     executeMerge this (Some t1) r = executeMerge this (Some t2) r).
Proof.
  split.
  - intros this other t1 t2 ref1 ref2 H1 H2 Hn. unfold checkout, git_reference_name.
    rewrite H1, H2. cbn [fmap option_fmap option_map]. by rewrite Hn.
  - intros this t1 t2 Hc. unfold executeMerge, performFastforward, getLastCommit.
    unfold_cpp. by rewrite Hc.
Qed.

(** X8.  Unless [performFastforward] returns [true], the only part of the
    repository it can have changed is HEAD: the references, the objects, the
    index and the working directory are as before, whether it returned
    [false] or threw. *)
Theorem performFastforward_only_HEAD this target r o r' :
  performFastforward this target r = (o, r') →
  o ≠ Returned true →
  r' = set_HEAD (HEAD r') r.
Proof.
  unfold performFastforward, getLastCommit, git_checkout_head, git_repository_set_head.
  unfold_cpp. intros H Ho.
  repeat case_match; simplify_eq/=; by rewrite ?set_HEAD_HEAD.
Qed.

(** X9.  After a fast-forward that succeeded, HEAD is attached to the local
    branch of the handle the merge was invoked on, whatever HEAD was attached
    to before. *)
Theorem performFastforward_attaches_HEAD this target ref r r' :
  performFastforward this target r = (Returned true, r') →
  _branch this = Some ref →
  String.prefix "refs/heads/" (ref_name ref) = true →
  HEAD r' = Symbolic (ref_name ref).
Proof.
  unfold performFastforward, getLastCommit, git_checkout_head, git_repository_set_head,
    git_reference_name.
  unfold_cpp. intros H Hb Hl. rewrite Hb in H. cbn [fmap option_fmap option_map] in H.
  rewrite Hl in H.
  repeat case_match; simplify_eq/=; done.
Qed.
End Frame_facts.

(** X6, at [repo_dirty]. *)
Lemma checkout_store_witness :
  refs (checkout (E := spec_engine) main_branch (Some feature_branch) repo_dirty).2
  = refs repo_dirty ∧
  commits (checkout (E := spec_engine) main_branch (Some feature_branch) repo_dirty).2
  = commits repo_dirty ∧
  trees (checkout (E := spec_engine) main_branch (Some feature_branch) repo_dirty).2
  = trees repo_dirty.
Proof.
  apply (checkout_store (E := spec_engine) main_branch (Some feature_branch) repo_dirty
           (checkout (E := spec_engine) main_branch (Some feature_branch) repo_dirty).1).
  apply surjective_pairing.
Defined.

(** X8, at [repo_behind_dirty]: the fast-forward invoked on the handle of
    [feature] throws after it has attached HEAD to [feature]; nothing else has
    changed. *)
Lemma performFastforward_only_HEAD_witness :
  (performFastforward (E := spec_engine) (branch_at feature_ref C1)
     (Some (branch_at feature_ref C1)) repo_behind_dirty).2
  = set_HEAD
      (HEAD (performFastforward (E := spec_engine) (branch_at feature_ref C1)
               (Some (branch_at feature_ref C1)) repo_behind_dirty).2)
      repo_behind_dirty.
Proof.
  apply (performFastforward_only_HEAD (E := spec_engine) (branch_at feature_ref C1)
           (Some (branch_at feature_ref C1)) repo_behind_dirty
           (Thrown (runtime_error "Fast-forward checkout failed: DirtyWorkingTree"))).
  - apply pair_fst_snd. vm_compute. reflexivity.
  - discriminate.
Defined.

(** At [repo_behind_dirty] HEAD has moved from [main] to [feature]. *)
Lemma performFastforward_behind_dirty_run :
  HEAD repo_behind_dirty = Symbolic main_ref ∧
  HEAD (performFastforward (E := spec_engine) (branch_at feature_ref C1)
          (Some (branch_at feature_ref C1)) repo_behind_dirty).2 = Symbolic feature_ref.
Proof. evaluate. Qed.

(** X9, at [repo_behind]: HEAD is on [main]; the fast-forward invoked on the
    handle of [feature] leaves HEAD on [feature]. *)
Lemma performFastforward_attaches_HEAD_witness :
  HEAD (performFastforward (E := spec_engine) (branch_at feature_ref C1)
          (Some (branch_at feature_ref C1)) repo_behind).2
  = Symbolic (ref_name (Reference feature_ref C1)).
Proof.
  apply (performFastforward_attaches_HEAD (E := spec_engine) (branch_at feature_ref C1)
           (Some (branch_at feature_ref C1)) (Reference feature_ref C1) repo_behind).
  - apply pair_fst_snd. vm_compute. reflexivity.
  - reflexivity.
  - vm_compute. reflexivity.
Defined.

(** ** Failed merges *)

Section Failure_facts.
Context `{E : Libgit2}.

Lemma executeMergeCommit_thrown_store this r e r' :
  executeMergeCommit this r = (Thrown e, r') →
  refs r' = refs r ∧ commits r' = commits r ∧ HEAD r' = HEAD r ∧ ∃ w, e = runtime_error w.
Proof.
  unfold executeMergeCommit, git_merge, git_repository_index, git_index_write_tree,
    git_tree_lookup, git_commit_create_v, git_commit_lookup, git_reference_target.
  unfold_cpp. intros H.
  repeat case_match; simplify_eq/=; eauto.
Qed.

Lemma performFastforward_thrown_runtime this target r e r' :
  performFastforward this (Some target) r = (Thrown e, r') → ∃ w, e = runtime_error w.
Proof.
  unfold performFastforward, getLastCommit. unfold_cpp. intros H.
  repeat case_match; simplify_eq/=; eauto.
Qed.

(** X10.  A merge that throws has moved no branch and stored no commit: after
    any exception of [executeMerge] the references and the commits are as
    before. *)
Theorem executeMerge_thrown_store this target r e r' :
  executeMerge this target r = (Thrown e, r') →
  refs r' = refs r ∧ commits r' = commits r.
Proof.
  destruct target as [target|]; [|unfold executeMerge, throw; by intros [= _ ->]].
  destruct (performFastforward this (Some target) r) as [[[]|e1] r1] eqn:Hff.
  - unfold executeMerge. unfold_cpp. rewrite Hff. discriminate.
  - rewrite executeMerge_step by (by rewrite Hff).
    destruct (executeMergeCommit this r) as [[[]|e2] r2] eqn:Hmc.
    + pose proof (executeMergeCommit_clean _ _ _ Hmc) as Hclean.
      rewrite (no_conflicts_no_paths _ Hclean). discriminate.
    + intros [= -> ->]. by apply executeMergeCommit_thrown_store in Hmc as (? & ? & _).
  - unfold executeMerge. unfold_cpp. rewrite Hff. intros [= -> ->].
    by apply performFastforward_store in Hff as (? & _ & ?).
Qed.

(** X11.  [std::invalid_argument] is thrown for null arguments and for nothing
    else: by [executeMerge] exactly when the target is null, by [checkout]
    exactly when the target or the reference of the target is null.  Every
    other failure is a [std::runtime_error]. *)
Theorem invalid_argument_for_null this target r w :
  ((executeMerge this target r).1 = Thrown (invalid_argument w) ↔
   target = None ∧ w = "Target branch is null.") ∧
  ((checkout this target r).1 = Thrown (invalid_argument w) ↔
   (target = None ∧ w = "Target branch is null.") ∨
   (∃ t, target = Some t ∧ _branch t = None ∧ w = "Target branch reference is null.")).
Proof.
  split.
  - split; [|by intros [-> ->]].
    destruct target as [target|]; [|by intros [= <-]].
    destruct (performFastforward this (Some target) r) as [[[]|e1] r1] eqn:Hff.
    + unfold executeMerge. unfold_cpp. rewrite Hff. discriminate.
    + rewrite executeMerge_step by (by rewrite Hff).
      destruct (executeMergeCommit this r) as [[[]|e2] r2] eqn:Hmc.
      * case_decide; discriminate.
      * apply executeMergeCommit_thrown_store in Hmc as (_ & _ & _ & w' & ->). discriminate.
    + unfold executeMerge. unfold_cpp. rewrite Hff.
      apply performFastforward_thrown_runtime in Hff as [w' ->]. discriminate.
  - split.
    + unfold checkout. unfold_cpp. intros H.
      repeat case_match; simplify_eq/=; eauto.
    + intros [[-> ->]|(t & -> & Hb & ->)]; unfold checkout; [done|]. by rewrite Hb.
Qed.
End Failure_facts.

(** X10, at [repo_conflicted]. *)
Lemma executeMerge_thrown_store_witness :
  refs (executeMerge (E := spec_engine) main_branch (Some feature_branch)
          repo_conflicted).2 = refs repo_conflicted ∧
  commits (executeMerge (E := spec_engine) main_branch (Some feature_branch)
             repo_conflicted).2 = commits repo_conflicted.
Proof.
  apply (executeMerge_thrown_store (E := spec_engine) main_branch (Some feature_branch)
           repo_conflicted (runtime_error "Merge conflicts detected.")).
  apply pair_fst_snd. vm_compute. reflexivity.
Defined.

(** ** The commit that executeMergeCommit writes *)

Section Commit_facts.
Context `{E : Libgit2}.

(** X12.  The commit that [executeMergeCommit] leaves at HEAD carries the
    message "Merged branch via libgit2", and its tree is stored and is exactly
    what is staged in the index when the call returns. *)
Theorem executeMergeCommit_tree_is_index this r r' :
  executeMergeCommit this r = (Returned tt, r') →
  ∃ headRef c,
    git_repository_head r' = GitOk headRef ∧
    commits r' !! ref_target headRef = Some c ∧
    commit_message c = message ∧
    trees r' !! commit_tree c = Some (index_tree (index r')).
Proof.
  intros (iw & headRef & _ & _ & Hh & Hc & Ht & Hi & _)%executeMergeCommit_head.
  cbv zeta in *. eexists _, _. split; [exact Hh|]. split; [exact Hc|].
  split; [done|]. by rewrite Hi.
Qed.

(** X13.  Two calls of [executeMergeCommit] in a row build a chain on the same
    reference: the only parent of the second commit is the first commit. *)
Theorem executeMergeCommit_twice_chain this r r1 r2 :
  executeMergeCommit this r = (Returned tt, r1) →
  executeMergeCommit this r1 = (Returned tt, r2) →
  ∃ head1 head2 c2,
    git_repository_head r1 = GitOk head1 ∧
    git_repository_head r2 = GitOk head2 ∧
    ref_name head2 = ref_name head1 ∧
    commits r2 !! ref_target head2 = Some c2 ∧
    commit_parents c2 = [ref_target head1].
Proof.
  intros (iw1 & h0 & _ & _ & Hh1 & _)%executeMergeCommit_head.
  intros (iw2 & h1 & _ & Hh1' & Hh2 & Hc2 & _)%executeMergeCommit_head.
  cbv zeta in *. rewrite Hh1 in Hh1'. injection Hh1' as <-.
  eexists _, _, _. split; [exact Hh1|]. split; [exact Hh2|]. split; [done|].
  split; [exact Hc2|]. done.
Qed.

(** X14.  When HEAD resolves to no stored commit (an unborn branch, or a
    reference whose commit is missing) and the merge step leaves no conflict,
    [executeMergeCommit] throws "Failed to get HEAD commit.": no commit is
    stored and no reference and not HEAD is moved, but the tree of the index
    has already been written to the object store. *)
Theorem executeMergeCommit_no_HEAD_commit this r iw :
  merge_heads r [] = GitOk iw →
  git_index_has_conflicts iw.1 = false →
  (∀ headRef, git_repository_head r = GitOk headRef →
              commits r !! ref_target headRef = None) →
  ∃ r', executeMergeCommit this r
        = (Thrown (runtime_error "Failed to get HEAD commit."), r') ∧
        commits r' = commits r ∧ refs r' = refs r ∧ HEAD r' = HEAD r ∧
        index r' = iw.1 ∧
        trees r' !! hash_tree (index_tree iw.1) = Some (index_tree iw.1).
Proof.
  intros Hm Hc Hno.
  unfold executeMergeCommit, git_merge, git_repository_index, git_index_write_tree,
    git_tree_lookup, git_commit_lookup, git_reference_target, git_repository_head in *.
  unfold_cpp. rewrite Hm. cbn [index set_worktree]. rewrite Hc.
  simpl. rewrite lookup_insert_eq. simpl.
  destruct (HEAD r) as [n|t] eqn:Hh.
  - destruct (refs r !! n) as [t|].
    + pose proof (Hno _ eq_refl) as Hnone. cbn [ref_target] in *. rewrite Hnone.
      eexists. split; [reflexivity|]. simpl. repeat split; try done.
      apply lookup_insert_eq.
    + eexists. split; [reflexivity|]. simpl. repeat split; try done.
      apply lookup_insert_eq.
  - pose proof (Hno _ eq_refl) as Hnone. cbn [ref_target] in *. rewrite Hnone.
    eexists. split; [reflexivity|]. simpl. repeat split; try done.
    apply lookup_insert_eq.
Qed.
End Commit_facts.

(** X12, at [repo_diverged]. *)
Lemma executeMergeCommit_tree_is_index_witness :
  ∃ headRef c,
    git_repository_head (executeMergeCommit (E := spec_engine) main_branch repo_diverged).2
    = GitOk headRef ∧
    commits (executeMergeCommit (E := spec_engine) main_branch repo_diverged).2
      !! ref_target headRef = Some c ∧
    commit_message c = message ∧
    trees (executeMergeCommit (E := spec_engine) main_branch repo_diverged).2
      !! commit_tree c
    = Some (index_tree
              (index (executeMergeCommit (E := spec_engine) main_branch repo_diverged).2)).
Proof.
  apply (executeMergeCommit_tree_is_index (E := spec_engine) main_branch repo_diverged).
  apply pair_fst_snd. vm_compute. reflexivity.
Defined.

(** X13, at [repo_diverged]. *)
Lemma executeMergeCommit_twice_chain_witness :
  ∃ head1 head2 c2,
    git_repository_head (executeMergeCommit (E := spec_engine) main_branch repo_diverged).2
    = GitOk head1 ∧
    git_repository_head
      (executeMergeCommit (E := spec_engine) main_branch
         (executeMergeCommit (E := spec_engine) main_branch repo_diverged).2).2
    = GitOk head2 ∧
    ref_name head2 = ref_name head1 ∧
    commits
      (executeMergeCommit (E := spec_engine) main_branch
         (executeMergeCommit (E := spec_engine) main_branch repo_diverged).2).2
      !! ref_target head2 = Some c2 ∧
    commit_parents c2 = [ref_target head1].
Proof.
  apply (executeMergeCommit_twice_chain (E := spec_engine) main_branch repo_diverged).
  - apply pair_fst_snd. vm_compute. reflexivity.
  - apply pair_fst_snd. vm_compute. reflexivity.
Defined.

(** X14, at [repo_unborn]. *)
Lemma executeMergeCommit_no_HEAD_commit_witness :
  ∃ r', executeMergeCommit (E := spec_engine) main_branch repo_unborn
        = (Thrown (runtime_error "Failed to get HEAD commit."), r') ∧
        commits r' = commits repo_unborn ∧ refs r' = refs repo_unborn ∧
        HEAD r' = HEAD repo_unborn ∧
        index r' = (index repo_unborn, workdir repo_unborn).1 ∧
        trees r' !! spec_hash_tree (index_tree (index repo_unborn, workdir repo_unborn).1)
        = Some (index_tree (index repo_unborn, workdir repo_unborn).1).
Proof.
  apply (executeMergeCommit_no_HEAD_commit (E := spec_engine) main_branch repo_unborn
           (index repo_unborn, workdir repo_unborn)).
  - vm_compute. reflexivity.
  - vm_compute. reflexivity.
  - intros headRef H. vm_compute in H. discriminate H.
Defined.

(** ** Who frees the reference *)

Lemma fresh_reference (refs : gmap positive git_reference) :
  refs !! fresh (dom refs) = None.
Proof. apply not_elem_of_dom. apply is_fresh. Qed.

Lemma git_reference_free_live a ref (refs : gmap positive git_reference) :
  refs !! a = Some ref → Ownership.git_reference_free (Some a) refs = Some (delete a refs).
Proof. unfold Ownership.git_reference_free. by intros ->. Qed.

(** X15.  The copy constructor gives the copy a reference object of its own,
    with the content of the original's and at another address; destroying the
    copy gives back exactly the references that were alive before, and the
    original can still be destroyed. *)
Theorem copy_constructor_owns_a_duplicate other p ref refs :
  Ownership._branch other = Some p → refs !! p = Some ref →
  ∃ copy q refs',
    Ownership.copy_constructor other refs = Ownership.Done copy refs' ∧
    Ownership._branch copy = Some q ∧ q ≠ p ∧
    refs' !! q = Some ref ∧ refs' !! p = Some ref ∧
    Ownership.destructor copy refs' = Some refs ∧
    Ownership.destructor other refs = Some (delete p refs).
Proof.
  intros Hb Hp. unfold Ownership.copy_constructor, Ownership.git_reference_dup.
  rewrite Hb, Hp. cbv zeta. set (q := fresh (dom refs)).
  assert (Hq : refs !! q = None) by apply fresh_reference.
  assert (Hne : q ≠ p) by congruence.
  eexists _, q, _. split; [reflexivity|]. split; [reflexivity|]. split; [done|].
  split; [apply lookup_insert_eq|]. split; [by rewrite lookup_insert_ne|].
  unfold Ownership.destructor, Ownership.git_reference_free. cbn [Ownership._branch].
  rewrite lookup_insert_eq, Hb, Hp. split; [|done].
  by rewrite delete_insert_id.
Qed.

(** X16.  The move constructor and the two constructors that take a
    repository copy the pointer [_branch] and leave it in [other] as well:
    the new object and [other] then hold the same reference, and whichever of
    the two is destroyed second frees a reference that is no longer alive. *)
Theorem sharing_constructors_free_twice other p ref refs b :
  Ownership._branch other = Some p → refs !! p = Some ref →
  b = Ownership.move_constructor other ∨
  (∃ repo, b = Ownership.rebind_constructor other repo) →
  Ownership._branch b = Ownership._branch other ∧
  (∃ refs1, Ownership.destructor b refs = Some refs1 ∧
            Ownership.destructor other refs1 = None) ∧
  (∃ refs1, Ownership.destructor other refs = Some refs1 ∧
            Ownership.destructor b refs1 = None).
Proof.
  intros Hb Hp Hctor.
  assert (Hsame : Ownership._branch b = Some p) by (by destruct Hctor as [->|[repo ->]]).
  split; [congruence|].
  unfold Ownership.destructor, Ownership.git_reference_free. rewrite Hsame, Hb, Hp.
  split; (eexists; split; [reflexivity|]); by rewrite lookup_delete_eq.
Qed.

(** X17.  Move assignment between two objects that own different references
    frees the reference [this] had, gives [this] the pointer of [other] and
    leaves that pointer in [other] too: destroying [this] and then [other]
    frees the same reference twice. *)
Theorem move_assignment_shares this other t o p q rp rq m :
  this ≠ other →
  Ownership.objects m !! this = Some t → Ownership.objects m !! other = Some o →
  Ownership._branch t = Some p → Ownership._branch o = Some q → p ≠ q →
  Ownership.references m !! p = Some rp → Ownership.references m !! q = Some rq →
  ∃ objs refs,
    Ownership.move_assignment this other m = Ownership.Done objs refs ∧
    refs = delete p (Ownership.references m) ∧
    (∃ t', objs !! this = Some t' ∧ Ownership._branch t' = Some q) ∧
    objs !! other = Some o ∧
    ∀ t', objs !! this = Some t' →
          ∃ refs1, Ownership.destructor t' refs = Some refs1 ∧
                   Ownership.destructor o refs1 = None.
Proof.
  intros Hne Ht Ho Hp Hq Hpq Hrp Hrq. unfold Ownership.move_assignment.
  rewrite decide_False by done. rewrite Ht, Ho.
  unfold Ownership.destructor, Ownership.git_reference_free. rewrite Hp, Hrp.
  eexists _, _. split; [reflexivity|]. split; [done|]. split.
  { eexists. rewrite lookup_insert_eq. split; [reflexivity|]. exact Hq. }
  split; [by rewrite lookup_insert_ne|].
  intros t'. rewrite lookup_insert_eq. intros [= <-].
  cbn [Ownership._branch Ownership.move_constructor]. rewrite Hq.
  rewrite lookup_delete_ne by done. rewrite Hrq.
  eexists. split; [reflexivity|]. by rewrite lookup_delete_eq.
Qed.

(** X18.  Copy assignment between two objects that own different references
    frees the reference [this] had and gives [this] a duplicate of the
    reference of [other], at an address of its own; [other] keeps its
    reference.  Destroying both objects afterwards frees each reference once
    and leaves none of the two original references alive. *)
Theorem copy_assignment_keeps_owners_apart this other t o p q rp rq m :
  this ≠ other →
  Ownership.objects m !! this = Some t → Ownership.objects m !! other = Some o →
  Ownership._branch t = Some p → Ownership._branch o = Some q → p ≠ q →
  Ownership.references m !! p = Some rp → Ownership.references m !! q = Some rq →
  ∃ objs refs t' q',
    Ownership.copy_assignment this other m = Ownership.Done objs refs ∧
    objs !! this = Some t' ∧ objs !! other = Some o ∧
    Ownership._branch t' = Some q' ∧ q' ≠ q ∧
    refs !! p = None ∧ refs !! q = Some rq ∧ refs !! q' = Some rq ∧
    ∃ refs1 refs2, Ownership.destructor t' refs = Some refs1 ∧
                   Ownership.destructor o refs1 = Some refs2 ∧
                   refs2 = delete q (delete p (Ownership.references m)).
Proof.
  intros Hne Ht Ho Hp Hq Hpq Hrp Hrq. unfold Ownership.copy_assignment.
  rewrite decide_False by done. rewrite Ht, Ho.
  unfold Ownership.copy_constructor, Ownership.git_reference_dup. rewrite Hq, Hrq. cbv zeta.
  set (refs0 := Ownership.references m) in *. set (q' := fresh (dom refs0)).
  assert (Hq' : refs0 !! q' = None) by apply fresh_reference.
  assert (Hq'p : q' ≠ p) by congruence. assert (Hq'q : q' ≠ q) by congruence.
  unfold Ownership.destructor, Ownership.git_reference_free. rewrite Hp.
  rewrite lookup_insert_ne by done. rewrite Hrp.
  eexists _, _, _, q'. split; [reflexivity|].
  split; [apply lookup_insert_eq|]. split; [by rewrite lookup_insert_ne|].
  split; [reflexivity|]. split; [done|].
  split; [apply lookup_delete_eq|].
  split; [by rewrite lookup_delete_ne, lookup_insert_ne|].
  split; [by rewrite lookup_delete_ne, lookup_insert_eq|].
  exists (delete q' (delete p (<[q':=rq]> refs0))), (delete q (delete p refs0)).
  cbn [Ownership._branch]. split; [|split; [|done]].
  - apply (git_reference_free_live _ rq). by rewrite lookup_delete_ne, lookup_insert_eq.
  - rewrite Hq. rewrite (delete_delete _ q' p), delete_insert_id by done.
    apply (git_reference_free_live _ rq). by rewrite lookup_delete_ne.
Qed.

(** X15, for [owner_main] among [live_references]. *)
Lemma copy_constructor_owns_a_duplicate_witness :
  ∃ copy q refs',
    Ownership.copy_constructor owner_main live_references = Ownership.Done copy refs' ∧
    Ownership._branch copy = Some q ∧ q ≠ 5%positive ∧
    refs' !! q = Some (Reference main_ref C1) ∧
    refs' !! 5%positive = Some (Reference main_ref C1) ∧
    Ownership.destructor copy refs' = Some live_references ∧
    Ownership.destructor owner_main live_references
    = Some (delete 5%positive live_references).
Proof.
  apply (copy_constructor_owns_a_duplicate owner_main 5%positive (Reference main_ref C1)
           live_references); reflexivity.
Defined.

(** X16, for the move constructor applied to [owner_main]. *)
Lemma sharing_constructors_free_twice_witness :
  Ownership._branch (Ownership.move_constructor owner_main) = Ownership._branch owner_main ∧
  (∃ refs1, Ownership.destructor (Ownership.move_constructor owner_main) live_references
            = Some refs1 ∧
            Ownership.destructor owner_main refs1 = None) ∧
  (∃ refs1, Ownership.destructor owner_main live_references = Some refs1 ∧
            Ownership.destructor (Ownership.move_constructor owner_main) refs1 = None).
Proof.
  apply (sharing_constructors_free_twice owner_main 5%positive (Reference main_ref C1)
           live_references).
  - reflexivity.
  - reflexivity.
  - left. reflexivity.
Defined.

(** X17, in [two_owners]: the object at 1 is move-assigned from the object
    at 2. *)
Lemma move_assignment_shares_witness :
  ∃ objs refs,
    Ownership.move_assignment 1%positive 2%positive two_owners = Ownership.Done objs refs ∧
    refs = delete 5%positive (Ownership.references two_owners) ∧
    (∃ t', objs !! 1%positive = Some t' ∧ Ownership._branch t' = Some 7%positive) ∧
    objs !! 2%positive = Some owner_feature ∧
    ∀ t', objs !! 1%positive = Some t' →
          ∃ refs1, Ownership.destructor t' refs = Some refs1 ∧
                   Ownership.destructor owner_feature refs1 = None.
Proof.
  apply (move_assignment_shares 1%positive 2%positive owner_main owner_feature
           5%positive 7%positive (Reference main_ref C1) (Reference feature_ref C2)
           two_owners); (reflexivity || discriminate).
Defined.

(** X18, in [two_owners]: the object at 1 is copy-assigned from the object
    at 2. *)
Lemma copy_assignment_keeps_owners_apart_witness :
  ∃ objs refs t' q',
    Ownership.copy_assignment 1%positive 2%positive two_owners = Ownership.Done objs refs ∧
    objs !! 1%positive = Some t' ∧ objs !! 2%positive = Some owner_feature ∧
    Ownership._branch t' = Some q' ∧ q' ≠ 7%positive ∧
    refs !! 5%positive = None ∧
    refs !! 7%positive = Some (Reference feature_ref C2) ∧
    refs !! q' = Some (Reference feature_ref C2) ∧
    ∃ refs1 refs2, Ownership.destructor t' refs = Some refs1 ∧
                   Ownership.destructor owner_feature refs1 = Some refs2 ∧
                   refs2 = delete 7%positive
                             (delete 5%positive (Ownership.references two_owners)).
Proof.
  apply (copy_assignment_keeps_owners_apart 1%positive 2%positive owner_main owner_feature
           5%positive 7%positive (Reference main_ref C1) (Reference feature_ref C2)
           two_owners); (reflexivity || discriminate).
Defined.
